(** * Sidebar store modules and the notebook modal of the annotation client

    A shallow embedding of
    - [src/sidebar/store/modules/direct-linked.js],
    - [src/sidebar/store/modules/session.js],
    - the [NotebookModal] component,
    with the properties of their reducers, selectors and effects. *)

From Stdlib Require Import ZArith String List Bool Lia.
From stdpp Require Import base strings pretty gmap list.

Local Open Scope string_scope.
Local Open Scope list_scope.

(** ** JavaScript values

    Plain data objects are finite maps from property names to values
    (their own properties).  Objects whose identity the program observes
    live in a heap and are referred to by location. *)

Module JS.

Definition loc := positive.

Inductive value :=
| VUndefined
| VNull
| VBool (b : bool)
| VNum (n : Z)
| VNaN
| VStr (s : string)
| VRef (l : loc).

#[global] Instance value_eq_dec : EqDecision value.
Proof. solve_decision. Defined.

Abbreviation obj := (gmap string value).
Abbreviation heap := (gmap loc (gmap string value)).

(** A call either returns or throws (a [TypeError] is the only exception
    the modelled code can raise). *)
Inductive outcome (A : Type) :=
| Returns (a : A)
| Throws.
Arguments Returns {A} a.
Arguments Throws {A}.

Definition bind {A B} (x : outcome A) (k : A -> outcome B) : outcome B :=
  match x with
  | Returns a => k a
  | Throws => Throws
  end.

(** [ToBoolean]. *)
Definition truthy (v : value) : bool :=
  match v with
  | VUndefined | VNull | VNaN => false
  | VBool b => b
  | VNum n => negb (n =? 0)%Z
  | VStr s => negb (String.eqb s "")
  | VRef _ => true
  end.


(** [a || b] *)
Definition js_or (a b : value) : value := if truthy a then a else b.

Definition nullish (v : value) : bool :=
  match v with
  | VUndefined | VNull => true
  | _ => false
  end.

(** [a ?? b] *)
Definition js_coalesce (a b : value) : value := if nullish a then b else a.

(** [a === b]: primitives by value ([NaN] differs from itself), objects by
    reference. *)
Definition strict_eq (a b : value) : bool :=
  match a, b with
  | VUndefined, VUndefined => true
  | VNull, VNull => true
  | VBool x, VBool y => Bool.eqb x y
  | VNum x, VNum y => (x =? y)%Z
  | VStr x, VStr y => String.eqb x y
  | VRef x, VRef y => (x =? y)%positive
  | _, _ => false
  end.

(** [a !== b] *)
Definition strict_ne (a b : value) : bool := negb (strict_eq a b).

(** [o.k] on an object record: a missing property reads as [undefined]. *)
Definition prop (o : obj) (k : string) : value := default VUndefined (o !! k).

(** [v.k] / [v[k]] on an arbitrary value: [undefined] and [null] have no
    properties (TypeError), a reference is looked up in the heap, the other
    primitives have none of the data properties used here. *)
Definition member (h : heap) (v : value) (k : string) : outcome value :=
  match v with
  | VUndefined | VNull => Throws
  | VRef l =>
      match h !! l with
      | Some o => Returns (prop o k)
      | None => Throws
      end
  | _ => Returns VUndefined
  end.

(** Evaluating an object literal allocates a new object. *)
Definition alloc (o : obj) (h : heap) : loc * heap :=
  let l := fresh (dom h) in (l, <[l := o]> h).

(** The indexed characters of a string, from index [i] on. *)
Fixpoint characters (i : nat) (s : string) : list (string * value) :=
  match s with
  | EmptyString => []
  | String c rest =>
      (pretty i, VStr (String c EmptyString)) :: characters (S i) rest
  end.

(** The own enumerable properties copied by [{...v}]: those of the object
    [v] refers to, the indexed characters of a string; [undefined], [null],
    booleans and numbers contribute none. *)
Definition spread (h : heap) (v : value) : obj :=
  match v with
  | VRef l => default ∅ (h !! l)
  | VStr s => list_to_map (characters 0 s)
  | _ => ∅
  end.

(** *** Reading a property through the prototype chain

    [v[k]] for a computed name [k] finds, after the own properties of [v],
    the members [v] inherits.  These are functions and prototype objects of
    the language's standard library, not data; a read yields either. *)

(** The members every object inherits from [Object.prototype]. *)
Definition objectPrototype : list string :=
  [ "constructor"; "__defineGetter__"; "__defineSetter__"; "hasOwnProperty";
    "__lookupGetter__"; "__lookupSetter__"; "isPrototypeOf";
    "propertyIsEnumerable"; "toString"; "valueOf"; "__proto__";
    "toLocaleString" ].

(** The members a string finds on [String.prototype]. *)
Definition stringPrototype : list string :=
  [ "constructor"; "anchor"; "at"; "big"; "blink"; "bold"; "charAt";
    "charCodeAt"; "codePointAt"; "concat"; "endsWith"; "fontcolor";
    "fontsize"; "fixed"; "includes"; "indexOf"; "isWellFormed"; "italics";
    "lastIndexOf"; "link"; "localeCompare"; "match"; "matchAll"; "normalize";
    "padEnd"; "padStart"; "repeat"; "replace"; "replaceAll"; "search";
    "slice"; "small"; "split"; "strike"; "sub"; "substr"; "substring"; "sup";
    "startsWith"; "toString"; "toWellFormed"; "trim"; "trimStart";
    "trimLeft"; "trimEnd"; "trimRight"; "toLocaleLowerCase";
    "toLocaleUpperCase"; "toLowerCase"; "toUpperCase"; "valueOf" ].

(** The members a number finds on [Number.prototype]. *)
Definition numberPrototype : list string :=
  [ "constructor"; "toExponential"; "toFixed"; "toLocaleString";
    "toPrecision"; "toString"; "valueOf" ].

(** The members a boolean finds on [Boolean.prototype]. *)
Definition booleanPrototype : list string :=
  [ "constructor"; "toString"; "valueOf" ].

Definition inherits (names : list string) (k : string) : bool :=
  existsb (String.eqb k) names.

(** What a read yields: a data value, or the member [name] of the
    prototype [owner]. *)
Inductive read :=
| Data (v : value)
| Builtin (owner name : string).



(** The lookup along a prototype chain, nearest prototype first; a name
    found nowhere reads as [undefined]. *)
Fixpoint along (chain : list (string * list string)) (k : string) : read :=
  match chain with
  | [] => Data VUndefined
  | (owner, names) :: rest =>
      if inherits names k then Builtin owner k else along rest k
  end.

(** [v[k]]: [undefined] and [null] have no properties (TypeError); an
    object has its own properties and then those of [Object.prototype]; a
    string has its [length], its indexed characters and then the members
    of [String.prototype] and [Object.prototype]; a number or boolean has
    those of its prototype and of [Object.prototype]. *)
Definition element (h : heap) (v : value) (k : string) : outcome read :=
  match v with
  | VUndefined | VNull => Throws
  | VRef l =>
      match h !! l with
      | Some o =>
          Returns (match o !! k with
                   | Some x => Data x
                   | None => along [("Object.prototype", objectPrototype)] k
                   end)
      | None => Throws
      end
  | VStr s =>
      Returns
        (if String.eqb k "length" then Data (VNum (Z.of_nat (String.length s)))
         else
           match (list_to_map (characters 0 s) : gmap string value) !! k with
           | Some c => Data c
           | None => along [("String.prototype", stringPrototype);
                            ("Object.prototype", objectPrototype)] k
           end)
  | VNum _ | VNaN =>
      Returns (along [("Number.prototype", numberPrototype);
                      ("Object.prototype", objectPrototype)] k)
  | VBool _ =>
      Returns (along [("Boolean.prototype", booleanPrototype);
                      ("Object.prototype", objectPrototype)] k)
  end.

End JS.

Import JS.

(** ** The store helpers *)

Module CreateStore.

(** Modelled from the spec: [makeAction] of [../create-store], imported by
    both store modules but defined outside them.  The store is "Redux-like": an action is a
    record carrying its [type] and the payload's properties,
    [{ type, ...payload }]; an [undefined] payload adds nothing. *)
Definition makeAction (type : string) (payload : option obj) : obj :=
  default ∅ payload ∪ {[ "type" := VStr type ]}.

Abbreviation reducer := (obj -> obj -> heap -> obj * heap).

(** Modelled from the spec: the reducer that [createStoreModule] of
    [../create-store] builds from a module's [reducers] table.  The table's
    functions return only the properties that change; the store looks the
    function up by [action.type] and merges its result over the previous
    state, [{ ...state, ...changes }].  An action no function is registered
    for leaves the state as it is. *)
Definition createReducer (reducers : gmap string reducer)
    (state action : obj) (h : heap) : obj * heap :=
  match action !! "type" with
  | Some (VStr t) =>
      match reducers !! t with
      | Some r => let '(changes, h') := r state action h in (changes ∪ state, h')
      | None => (state, h)
      end
  | _ => (state, h)
  end.

(** The actions whose type names a member that a plain object, such as a
    module's [reducers] table, inherits from [Object.prototype].  They are
    no store module's actions, and what a lookup by such a type finds is
    not a reducer of the table; the properties below that speak of all
    actions leave them aside. *)
Definition inheritedType (a : obj) : Prop :=
  exists t, a !! "type" = Some (VStr t) /\ inherits objectPrototype t = true.

End CreateStore.

(** ** [direct-linked.js] *)

Module DirectLinked.

Import CreateStore.

(** [initialState(settings)]; reading a property of a missing [settings]
    throws. *)
Definition initialState (settings : option obj) : outcome obj :=
  match settings with
  | None => Throws
  | Some s =>
      Returns
        (<[ "directLinkedGroupId" := js_or (prop s "group") VNull ]>
        (<[ "directLinkedAnnotationId" := js_or (prop s "annotations") VNull ]>
        {[ "directLinkedGroupFetchFailed" := VBool false ]}))
  end.

Definition UPDATE_DIRECT_LINKED_GROUP_FETCH_FAILED : reducer :=
  fun state action h =>
    ({[ "directLinkedGroupFetchFailed" := prop action "directLinkedGroupFetchFailed" ]}, h).

Definition UPDATE_DIRECT_LINKED_GROUP_ID : reducer :=
  fun state action h =>
    ({[ "directLinkedGroupId" := prop action "directLinkedGroupId" ]}, h).

Definition UPDATE_DIRECT_LINKED_ANNOTATION_ID : reducer :=
  fun state action h =>
    ({[ "directLinkedAnnotationId" := prop action "directLinkedAnnotationId" ]}, h).

Definition CLEAR_DIRECT_LINKED_IDS : reducer :=
  fun state action h =>
    (<[ "directLinkedAnnotationId" := VNull ]>
       {[ "directLinkedGroupId" := VNull ]}, h).

Definition CLEAR_SELECTION : reducer :=
  fun state action h =>
    (<[ "directLinkedAnnotationId" := VNull ]>
     (<[ "directLinkedGroupId" := VNull ]>
       {[ "directLinkedGroupFetchFailed" := VBool false ]}), h).

Definition reducers : gmap string reducer :=
  <[ "UPDATE_DIRECT_LINKED_GROUP_FETCH_FAILED" := UPDATE_DIRECT_LINKED_GROUP_FETCH_FAILED ]>
  (<[ "UPDATE_DIRECT_LINKED_GROUP_ID" := UPDATE_DIRECT_LINKED_GROUP_ID ]>
  (<[ "UPDATE_DIRECT_LINKED_ANNOTATION_ID" := UPDATE_DIRECT_LINKED_ANNOTATION_ID ]>
  (<[ "CLEAR_DIRECT_LINKED_IDS" := CLEAR_DIRECT_LINKED_IDS ]>
  {[ "CLEAR_SELECTION" := CLEAR_SELECTION ]}))).

(** Action creators. *)
Definition setDirectLinkedGroupId (groupId : value) : obj :=
  makeAction "UPDATE_DIRECT_LINKED_GROUP_ID"
    (Some {[ "directLinkedGroupId" := groupId ]}).

Definition setDirectLinkedAnnotationId (annId : value) : obj :=
  makeAction "UPDATE_DIRECT_LINKED_ANNOTATION_ID"
    (Some {[ "directLinkedAnnotationId" := annId ]}).

Definition setDirectLinkedGroupFetchFailed : obj :=
  makeAction "UPDATE_DIRECT_LINKED_GROUP_FETCH_FAILED"
    (Some {[ "directLinkedGroupFetchFailed" := VBool true ]}).

Definition clearDirectLinkedGroupFetchFailed : obj :=
  makeAction "UPDATE_DIRECT_LINKED_GROUP_FETCH_FAILED"
    (Some {[ "directLinkedGroupFetchFailed" := VBool false ]}).

Definition clearDirectLinkedIds : obj :=
  makeAction "CLEAR_DIRECT_LINKED_IDS" None.

(** Selectors. *)
Definition directLinkedAnnotationId (state : obj) : value :=
  prop state "directLinkedAnnotationId".

Definition directLinkedGroupId (state : obj) : value :=
  prop state "directLinkedGroupId".

Definition directLinkedGroupFetchFailed (state : obj) : value :=
  prop state "directLinkedGroupFetchFailed".

(** The module's reducer, as the store runs it on a dispatched action. *)
Definition reduce (state action : obj) (h : heap) : obj * heap :=
  createReducer reducers state action h.

(** The state after a sequence of dispatched actions (none of this module's
    reducers touches the heap, see [reduce_heap]). *)
Definition run (state : obj) (actions : list obj) : obj :=
  foldl (fun s a => (reduce s a ∅).1) state actions.

(** The actions the module's reducer meets: those its action creators
    make, a [CLEAR_SELECTION] action, and actions of other store modules,
    whose type none of [reducers] is registered for. *)
Inductive dispatched : obj -> Prop :=
| by_setDirectLinkedGroupFetchFailed :
    dispatched setDirectLinkedGroupFetchFailed
| by_clearDirectLinkedGroupFetchFailed :
    dispatched clearDirectLinkedGroupFetchFailed
| by_setDirectLinkedGroupId v :
    dispatched (setDirectLinkedGroupId v)
| by_setDirectLinkedAnnotationId v :
    dispatched (setDirectLinkedAnnotationId v)
| by_clearDirectLinkedIds :
    dispatched clearDirectLinkedIds
| clear_selection a :
    a !! "type" = Some (VStr "CLEAR_SELECTION") -> dispatched a
| foreign a t :
    a !! "type" = Some (VStr t) -> reducers !! t = None -> dispatched a.

(** The two clearing actions of the fetch-failed flag. *)
Definition clearing (a : obj) : Prop :=
  a = clearDirectLinkedGroupFetchFailed \/
  a !! "type" = Some (VStr "CLEAR_SELECTION").

(** All three properties are back to their cleared values. *)
Definition allCleared (state : obj) : Prop :=
  directLinkedAnnotationId state = VNull /\
  directLinkedGroupId state = VNull /\
  directLinkedGroupFetchFailed state = VBool false.

(** The actions that clear the direct-linked IDs. *)
Definition clearsIds (a : obj) : Prop :=
  a = clearDirectLinkedIds \/
  a !! "type" = Some (VStr "CLEAR_SELECTION").

(** The actions made by [setDirectLinkedGroupId]. *)
Definition setsGroupId (a : obj) : Prop :=
  exists v, a = setDirectLinkedGroupId v.

(** The actions made by [setDirectLinkedAnnotationId]. *)
Definition setsAnnotationId (a : obj) : Prop :=
  exists v, a = setDirectLinkedAnnotationId v.

End DirectLinked.

(** ** [session.js] *)

Module Session.

Import CreateStore.

(** Loading the module evaluates the [initialProfile] literal: two empty
    maps and the profile object that refers to them.  The result is the
    location bound to the constant [initialProfile]. *)
Definition load (h : heap) : loc * heap :=
  let '(features, h1) := alloc ∅ h in
  let '(preferences, h2) := alloc ∅ h1 in
  alloc (<[ "features" := VRef features ]>
        (<[ "preferences" := VRef preferences ]>
         {[ "userid" := VNull ]})) h2.

Section WithInitialProfile.

(** The module-level constant. *)
Variable initialProfile : loc.

(** [initialState(settings)]; [settings?.authDomain] is [undefined] when
    [settings] itself is missing. *)
Definition initialState (settings : option obj) : obj :=
  <[ "defaultAuthority" :=
       js_coalesce
         (match settings with
          | Some s => prop s "authDomain"
          | None => VUndefined
          end)
         (VStr "") ]>
  {[ "profile" := VRef initialProfile ]}.

(** [{ profile: { ...action.profile } }]: the inner literal is a new
    object. *)
Definition UPDATE_PROFILE : reducer :=
  fun state action h =>
    let '(copy, h') := alloc (spread h (prop action "profile")) h in
    ({[ "profile" := VRef copy ]}, h').

Definition reducers : gmap string reducer :=
  {[ "UPDATE_PROFILE" := UPDATE_PROFILE ]}.

Definition updateProfile (profile : value) : obj :=
  makeAction "UPDATE_PROFILE" (Some {[ "profile" := profile ]}).

Definition defaultAuthority (state : obj) : value :=
  prop state "defaultAuthority".

Definition isLoggedIn (h : heap) (state : obj) : outcome value :=
  bind (member h (prop state "profile") "userid") (fun userid =>
  Returns (VBool (strict_ne userid VNull))).



Definition hasFetchedProfile (state : obj) : value :=
  VBool (strict_ne (prop state "profile") (VRef initialProfile)).

Definition profile (state : obj) : value :=
  prop state "profile".

Definition reduce (state action : obj) (h : heap) : obj * heap :=
  createReducer reducers state action h.

End WithInitialProfile.

(** The state and heap after a sequence of dispatched actions. *)
Definition run (state : obj) (h : heap) (actions : list obj) : obj * heap :=
  foldl (fun sh a => reduce sh.1 a sh.2) (state, h) actions.

(** The actions the [UPDATE_PROFILE] reducer is registered for. *)
Definition updatesProfile (a : obj) : Prop :=
  a !! "type" = Some (VStr "UPDATE_PROFILE").

End Session.

(** ** The [NotebookModal] component *)

Module NotebookModal.

(** An event bus is known by its identity; an emitter by the order in which
    it was created. *)
Definition busId := nat.
Definition emitterId := nat.

(** What the component keeps between renders: the [useState] cell, the two
    [useRef] cells, and for each [useEffect] with dependencies the values
    it last ran with (the third effect also keeps the emitter its cleanup
    closes over). *)
Record hooks := Hooks {
  isHidden : bool;
  originalDocumentOverflowStyle : string;
  emitterRef : option emitterId;
  overflowEffectDeps : option bool;
  emitterEffect : option (busId * emitterId)
}.

(** What the component acts on: [document.body.style.overflow], the
    emitters it has created (each with its bus and the events it is
    subscribed to) and the events it has published. *)
Record page := Page {
  overflow : string;
  emitters : list (busId * list string);
  published : list (busId * string)
}.

Inductive state :=
| Mounted (eventBus : busId) (c : hooks) (p : page)
| Destroyed (p : page).

Definition setIsHidden (b : bool) (c : hooks) : hooks :=
  Hooks b (originalDocumentOverflowStyle c) (emitterRef c)
        (overflowEffectDeps c) (emitterEffect c).

Definition setOverflow (v : string) (p : page) : page :=
  Page v (emitters p) (published p).

(** Modelled from the spec: the [Emitter] of [../util/emitter], defined
    outside the component.  [eventBus.createEmitter()] makes an emitter on
    that bus, [subscribe] registers a callback for an event name,
    [destroy] drops the emitter's subscriptions, [publish] sends an event
    over the emitter's bus. *)
Definition createEmitter (bus : busId) (p : page) : emitterId * page :=
  (length (emitters p), Page (overflow p) (emitters p ++ [(bus, [])]) (published p)).

(** Modelled from the spec: [emitter.subscribe(name, callback)] of the
    same [Emitter]; the component's only callback is the one that shows the
    modal. *)
Definition subscribe (e : emitterId) (name : string) (p : page) : page :=
  Page (overflow p)
       (alter (fun '(bus, names) => (bus, name :: names)) e (emitters p))
       (published p).

(** Modelled from the spec: [emitter.destroy()] of the same [Emitter]. *)
Definition destroy (e : emitterId) (p : page) : page :=
  Page (overflow p)
       (alter (fun '(bus, _) => (bus, [])) e (emitters p))
       (published p).

(** Modelled from the spec: [emitter.publish(name)] of the same
    [Emitter]. *)
Definition publish (e : emitterId) (name : string) (p : page) : page :=
  match emitters p !! e with
  | Some (bus, _) => Page (overflow p) (emitters p) (published p ++ [(bus, name)])
  | None => p
  end.

(** Does an event sent over [bus] reach a callback of this component? *)
Definition subscribed (bus : busId) (name : string) (p : page) : bool :=
  existsb (fun '(b, names) => (b =? bus)%nat && existsb (String.eqb name) names)
          (emitters p).

(** First effect (no dependencies): runs once, after the first render. *)
Definition rememberOverflow (c : hooks) (p : page) : hooks :=
  Hooks (isHidden c) (overflow p) (emitterRef c)
        (overflowEffectDeps c) (emitterEffect c).

(** ... and its cleanup, run when the component is destroyed. *)
Definition restoreOverflow (c : hooks) (p : page) : page :=
  setOverflow (originalDocumentOverflowStyle c) p.

(** Second effect, dependencies [[isHidden]]: runs after the first render
    and after each render in which [isHidden] differs from the value the
    effect last ran with. *)
Definition overflowEffect (c : hooks) (p : page) : hooks * page :=
  if decide (overflowEffectDeps c = Some (isHidden c)) then (c, p)
  else
    (Hooks (isHidden c) (originalDocumentOverflowStyle c) (emitterRef c)
           (Some (isHidden c)) (emitterEffect c),
     if isHidden c
     then setOverflow (originalDocumentOverflowStyle c) p
     else setOverflow "hidden" p).

(** Third effect, dependencies [[eventBus]]: when they change the previous
    run's cleanup destroys its emitter, then a new emitter is created,
    subscribed to ['openNotebook'] and stored in [emitterRef]. *)
Definition subscribeEffect (eventBus : busId) (c : hooks) (p : page)
    : hooks * page :=
  if decide (fst <$> emitterEffect c = Some eventBus) then (c, p)
  else
    let p1 := match emitterEffect c with
              | Some (_, old) => destroy old p
              | None => p
              end in
    let '(emitter, p2) := createEmitter eventBus p1 in
    let p3 := subscribe emitter "openNotebook" p2 in
    (Hooks (isHidden c) (originalDocumentOverflowStyle c) (Some emitter)
           (overflowEffectDeps c) (Some (eventBus, emitter)),
     p3).

(** The effects of one render, in the order the hooks are declared. *)
Definition runEffects (eventBus : busId) (c : hooks) (p : page) : state :=
  let '(c1, p1) := overflowEffect c p in
  let '(c2, p2) := subscribeEffect eventBus c1 p1 in
  Mounted eventBus c2 p2.

(** Mounting the component in a page: initial hook values, first render,
    then all three effects. *)
Definition mount (eventBus : busId) (p : page) : state :=
  let c0 := Hooks true "" None None None in
  runEffects eventBus (rememberOverflow c0 p) p.

(** [onClose], the close button's click handler. *)
Definition onClose (c : hooks) (p : page) : hooks * page :=
  (setIsHidden true c,
   match emitterRef c with
   | Some e => publish e "closeNotebook" p
   | None => p
   end).

Inductive event :=
| BusEvent (bus : busId) (name : string)   (* an event sent over a bus *)
| CloseClicked                             (* the close button is pressed *)
| Rerender (eventBus : busId)              (* the parent renders the modal again *)
| Unmount.                                 (* the component is destroyed *)

(** One event, handled up to the point where the resulting render and its
    effects have run. *)
Definition step (s : state) (ev : event) : state :=
  match s with
  | Destroyed _ => s
  | Mounted eventBus c p =>
      match ev with
      | BusEvent bus name =>
          if subscribed bus name p
          then runEffects eventBus (setIsHidden false c) p
          else s
      | CloseClicked =>
          let '(c', p') := onClose c p in runEffects eventBus c' p'
      | Rerender eventBus' => runEffects eventBus' c p
      | Unmount =>
          let p1 := restoreOverflow c p in
          Destroyed (match emitterEffect c with
                     | Some (_, e) => destroy e p1
                     | None => p1
                     end)
      end
  end.

Definition run (s : state) (evs : list event) : state := foldl step s evs.

Definition pageOf (s : state) : page :=
  match s with
  | Mounted _ _ p => p
  | Destroyed p => p
  end.

(** The modal is shown unless its outer element carries [is-hidden]. *)
Definition visible (s : state) : bool :=
  match s with
  | Mounted _ c _ => negb (isHidden c)
  | Destroyed _ => false
  end.

(** The page the modal is mounted in, before the component has touched
    it: [o] is the body's own [overflow] style. *)
Definition hostPage (o : string) : page := Page o [] [].

(** What every state reached from a mount in [hostPage o] satisfies: the
    ref holds the page's original overflow, the overflow effect has run for
    the current [isHidden], and the current emitter is subscribed to
    ['openNotebook'] on the current bus. *)
Definition settled (o : string) (s : state) : Prop :=
  match s with
  | Mounted eventBus c p =>
      originalDocumentOverflowStyle c = o /\
      overflowEffectDeps c = Some (isHidden c) /\
      overflow p = (if isHidden c then o else "hidden") /\
      exists e,
        emitterEffect c = Some (eventBus, e) /\
        emitterRef c = Some e /\
        emitters p !! e = Some (eventBus, ["openNotebook"])
  | Destroyed p => overflow p = o
  end.

(** No emitter other than [current] holds a subscription. *)
Definition onlySubscriber (current : option emitterId) (p : page) : Prop :=
  forall e bus names,
    emitters p !! e = Some (bus, names) -> Some e <> current -> names = [].

(** [settled], together with the bookkeeping of emitters: only the current
    emitter is subscribed; once the component is destroyed none is. *)
Definition tidy (o : string) (s : state) : Prop :=
  settled o s /\
  match s with
  | Mounted _ c p => onlySubscriber (emitterRef c) p
  | Destroyed p => onlySubscriber None p
  end.

(** The close clicks the component handles: those before it is
    destroyed. *)
Fixpoint closeClicks (evs : list event) : nat :=
  match evs with
  | [] => 0
  | Unmount :: _ => 0
  | CloseClicked :: rest => S (closeClicks rest)
  | _ :: rest => closeClicks rest
  end.

(** The changes of event bus the component sees: renders, before it is
    destroyed, with another bus than the render before. *)
Fixpoint busChanges (eventBus : busId) (evs : list event) : nat :=
  match evs with
  | [] => 0
  | Unmount :: _ => 0
  | Rerender eventBus' :: rest =>
      (if decide (eventBus' = eventBus) then 0 else 1) + busChanges eventBus' rest
  | _ :: rest => busChanges eventBus rest
  end.

End NotebookModal.

(** * Properties *)

(** ** Reading properties of merged records *)

Lemma prop_insert (o : gmap string value) k v : prop (<[k := v]> o) k = v.
Proof. unfold prop. by rewrite lookup_insert_eq. Qed.

Lemma prop_insert_ne (o : gmap string value) k k' v :
  k <> k' -> prop (<[k := v]> o) k' = prop o k'.
Proof. intros. unfold prop. by rewrite lookup_insert_ne. Qed.

Lemma prop_singleton k v : prop {[ k := v ]} k = v.
Proof. unfold prop. by rewrite lookup_singleton_eq. Qed.

Lemma member_ref (h : heap) l (o : gmap string value) k :
  h !! l = Some o -> member h (VRef l) k = Returns (prop o k).
Proof. intros Hl. unfold member. by rewrite Hl. Qed.

Lemma prop_union_l (changes state : gmap string value) k v :
  changes !! k = Some v -> prop (changes ∪ state) k = v.
Proof. intros Hk. unfold prop. by rewrite (lookup_union_Some_l _ _ _ _ Hk). Qed.

Lemma prop_union_r (changes state : gmap string value) k :
  changes !! k = None -> prop (changes ∪ state) k = prop state k.
Proof. intros Hk. unfold prop. by rewrite lookup_union_r. Qed.

Lemma createReducer_registered reducers (state action : gmap string value) h t r :
  action !! "type" = Some (VStr t) ->
  reducers !! t = Some r ->
  CreateStore.createReducer reducers state action h
  = ((r state action h).1 ∪ state, (r state action h).2).
Proof.
  intros Ht Hr. unfold CreateStore.createReducer. rewrite Ht, Hr.
  by destruct (r state action h).
Qed.

Lemma createReducer_unregistered reducers (state action : gmap string value) h t :
  action !! "type" = Some (VStr t) ->
  reducers !! t = None ->
  CreateStore.createReducer reducers state action h = (state, h).
Proof. intros Ht Hr. unfold CreateStore.createReducer. by rewrite Ht, Hr. Qed.

(** ** [direct-linked.js] *)

Section DirectLinkedProperties.

Import DirectLinked.

Example initialState_from_url :
  initialState (Some {[ "group" := VStr "abc123" ]}) =
  Returns (<[ "directLinkedGroupId" := VStr "abc123" ]>
          (<[ "directLinkedAnnotationId" := VNull ]>
           {[ "directLinkedGroupFetchFailed" := VBool false ]})).
Proof. reflexivity. Qed.

Example initialState_without_settings : initialState None = Throws.
Proof. reflexivity. Qed.

Example clearDirectLinkedIds_is_bare :
  clearDirectLinkedIds = {[ "type" := VStr "CLEAR_DIRECT_LINKED_IDS" ]}.
Proof. reflexivity. Qed.

Lemma reduce_registered (state action : gmap string value) h t r :
  action !! "type" = Some (VStr t) ->
  reducers !! t = Some r ->
  reduce state action h = ((r state action h).1 ∪ state, (r state action h).2).
Proof. apply createReducer_registered. Qed.

(** None of the module's reducers allocates: the heap is passed through and
    the new state does not depend on it. *)
Lemma reduce_heap (state action : gmap string value) h :
  reduce state action h = ((reduce state action ∅).1, h).
Proof.
  unfold reduce, CreateStore.createReducer.
  destruct (action !! "type") as [[]|]; try reflexivity.
  unfold reducers. rewrite !lookup_insert, lookup_singleton.
  repeat case_decide; reflexivity.
Qed.

Lemma run_snoc state actions a :
  run state (actions ++ [a]) = (reduce (run state actions) a ∅).1.
Proof. unfold run. by rewrite foldl_app. Qed.

(** The fetch-failed flag after one dispatched action. *)
Lemma flag_after_dispatched (state a : gmap string value) :
  dispatched a ->
  directLinkedGroupFetchFailed (reduce state a ∅).1 =
    if decide (a = setDirectLinkedGroupFetchFailed) then VBool true
    else if decide (a = clearDirectLinkedGroupFetchFailed) then VBool false
    else if decide (a !! "type" = Some (VStr "CLEAR_SELECTION")) then VBool false
    else directLinkedGroupFetchFailed state.
Proof.
  intros Ha. unfold directLinkedGroupFetchFailed.
  destruct Ha as [ | |v|v| |a Ha|a t Ha Ht].
  - rewrite decide_True by done.
    erewrite reduce_registered by reflexivity. by apply prop_union_l.
  - rewrite decide_False by (intros E; by apply (f_equal (.!! "directLinkedGroupFetchFailed")) in E).
    rewrite decide_True by done.
    erewrite reduce_registered by reflexivity. by apply prop_union_l.
  - rewrite !decide_False by (intros E; by apply (f_equal (.!! "type")) in E).
    erewrite reduce_registered by reflexivity. by apply prop_union_r.
  - rewrite !decide_False by (intros E; by apply (f_equal (.!! "type")) in E).
    erewrite reduce_registered by reflexivity. by apply prop_union_r.
  - rewrite !decide_False by (intros E; by apply (f_equal (.!! "type")) in E).
    erewrite reduce_registered by reflexivity. by apply prop_union_r.
  - rewrite !decide_False by (intros ->; by vm_compute in Ha).
    rewrite decide_True by done.
    erewrite reduce_registered by (done || reflexivity). by apply prop_union_l.
  - assert (t <> "CLEAR_SELECTION") as Hc
      by (intros ->; rewrite (eq_refl : reducers !! "CLEAR_SELECTION" = Some _) in Ht;
          discriminate Ht).
    assert (t <> "UPDATE_DIRECT_LINKED_GROUP_FETCH_FAILED") as Hu
      by (intros ->;
          rewrite (eq_refl : reducers !! "UPDATE_DIRECT_LINKED_GROUP_FETCH_FAILED" = Some _) in Ht;
          discriminate Ht).
    rewrite decide_False
      by (intros ->;
          rewrite (eq_refl : setDirectLinkedGroupFetchFailed !! "type" = Some _) in Ha;
          congruence).
    rewrite decide_False
      by (intros ->;
          rewrite (eq_refl : clearDirectLinkedGroupFetchFailed !! "type" = Some _) in Ha;
          congruence).
    rewrite decide_False by congruence.
    unfold reduce. by erewrite createReducer_unregistered.
Qed.

Lemma not_clearing_iff (a : gmap string value) :
  ~ clearing a <->
  a <> clearDirectLinkedGroupFetchFailed /\
  a !! "type" <> Some (VStr "CLEAR_SELECTION").
Proof. unfold clearing. tauto. Qed.

Lemma set_not_clearing : ~ clearing setDirectLinkedGroupFetchFailed.
Proof.
  intros [E|E]; [|by vm_compute in E].
  by apply (f_equal (.!! "directLinkedGroupFetchFailed")) in E.
Qed.

(** Splitting a trace at its last element. *)
Lemma split_last_action (l before after : list (gmap string value)) a x :
  l ++ [a] = before ++ x :: after ->
  (after = [] /\ a = x /\ l = before) \/
  (exists after', after = after' ++ [a] /\ l = before ++ x :: after').
Proof.
  intros E. destruct after as [|y after _] using rev_ind.
  - apply app_inj_tail in E as [-> ->]. by left.
  - right. exists after.
    change (before ++ x :: after ++ [y]) with (before ++ (x :: after) ++ [y]) in E.
    rewrite app_assoc in E. apply app_inj_tail in E as [-> ->]. done.
Qed.

(** The flag along a trace that starts with the flag down. *)
Lemma flag_along_trace (state0 : gmap string value) actions :
  directLinkedGroupFetchFailed state0 = VBool false ->
  Forall dispatched actions ->
  (directLinkedGroupFetchFailed (run state0 actions) = VBool true <->
   exists before after,
     actions = before ++ setDirectLinkedGroupFetchFailed :: after /\
     Forall (fun a => ~ clearing a) after) /\
  (exists b, directLinkedGroupFetchFailed (run state0 actions) = VBool b).
Proof.
  intros H0. induction actions as [|a l IH] using rev_ind; intros Hd.
  - split; [|by exists false]. unfold run; simpl. rewrite H0. split; [done|].
    intros (before & after & E & _). by destruct before.
  - apply Forall_app in Hd as [Hl Ha]. apply Forall_inv in Ha.
    destruct (IH Hl) as [IHt [b IHb]]. clear IH.
    rewrite run_snoc, (flag_after_dispatched _ _ Ha).
    repeat case_decide.
    + split; [|by exists true]. split; [|done]. intros _.
      exists l, []. by subst a.
    + split; [|by exists false]. split; [done|].
      intros (before & after & E & Hn).
      apply split_last_action in E as [(_ & E & _)|(after' & -> & _)]; [congruence|].
      apply Forall_app in Hn as [_ Hn]. apply Forall_inv in Hn.
      destruct Hn. by left.
    + split; [|by exists false]. split; [done|].
      intros (before & after & E & Hn).
      apply split_last_action in E as [(_ & E & _)|(after' & -> & _)]; [congruence|].
      apply Forall_app in Hn as [_ Hn]. apply Forall_inv in Hn.
      destruct Hn. by right.
    + split; [|by exists b]. rewrite IHt. split.
      * intros (before & after & -> & Hn).
        exists before, (after ++ [a]). split; [by rewrite <- app_assoc|].
        apply Forall_app. split; [done|]. apply Forall_singleton.
        by apply not_clearing_iff.
      * intros (before & after & E & Hn).
        apply split_last_action in E as [(_ & E & _)|(after' & -> & ->)]; [congruence|].
        exists before, after'. split; [done|].
        by apply Forall_app in Hn as [Hn _].
Qed.

(** C3: the fetch-failed flag is down in the initial state; in any state
    [setDirectLinkedGroupFetchFailed] raises it, while
    [clearDirectLinkedGroupFetchFailed] and [CLEAR_SELECTION] lower it; after
    a sequence of dispatched actions the selector
    [directLinkedGroupFetchFailed] returns [true] exactly when the sequence
    holds a [setDirectLinkedGroupFetchFailed] that no clearing action
    follows, and [false] otherwise. *)
Theorem fetch_failed_flag_lifecycle
    (settings state0 : gmap string value) (actions : list (gmap string value)) :
  initialState (Some settings) = Returns state0 ->
  Forall dispatched actions ->
  directLinkedGroupFetchFailed state0 = VBool false /\
  (forall state h,
     directLinkedGroupFetchFailed
       (reduce state setDirectLinkedGroupFetchFailed h).1 = VBool true) /\
  (forall state h,
     directLinkedGroupFetchFailed
       (reduce state clearDirectLinkedGroupFetchFailed h).1 = VBool false) /\
  (forall state h a,
     a !! "type" = Some (VStr "CLEAR_SELECTION") ->
     directLinkedGroupFetchFailed (reduce state a h).1 = VBool false) /\
  (directLinkedGroupFetchFailed (run state0 actions) = VBool true <->
   exists before after,
     actions = before ++ setDirectLinkedGroupFetchFailed :: after /\
     Forall (fun a => ~ clearing a) after) /\
  (exists b, directLinkedGroupFetchFailed (run state0 actions) = VBool b).
Proof.
  intros Hinit Hd.
  assert (directLinkedGroupFetchFailed state0 = VBool false) as H0.
  { injection Hinit as <-. reflexivity. }
  split; [done|].
  split. { intros state h. rewrite reduce_heap. simpl.
           rewrite flag_after_dispatched by constructor. by rewrite decide_True. }
  split. { intros state h. rewrite reduce_heap. simpl.
           rewrite flag_after_dispatched by constructor.
           rewrite decide_False; [by rewrite decide_True|].
           intros E. by apply (f_equal (.!! "directLinkedGroupFetchFailed")) in E. }
  split. { intros state h a Ha. rewrite reduce_heap. simpl.
           rewrite flag_after_dispatched by (by apply clear_selection).
           repeat case_decide; subst; try done; by vm_compute in Ha. }
  by apply flag_along_trace.
Qed.

(** C6: the initial state takes its IDs from the configuration:
    [directLinkedGroupId] is [settings.group] when that is truthy (for a
    string: non-empty) and [null] otherwise, that is when it is missing,
    [undefined], [null] or the empty string; likewise
    [directLinkedAnnotationId] and [settings.annotations]. *)
Theorem initial_direct_linked_ids (settings : gmap string value) :
  exists state,
    initialState (Some settings) = Returns state /\
    directLinkedGroupId state =
      match settings !! "group" with
      | Some (VStr s) => if decide (s = "") then VNull else VStr s
      | Some VUndefined | Some VNull | None => VNull
      | Some v => if truthy v then v else VNull
      end /\
    directLinkedAnnotationId state =
      match settings !! "annotations" with
      | Some (VStr s) => if decide (s = "") then VNull else VStr s
      | Some VUndefined | Some VNull | None => VNull
      | Some v => if truthy v then v else VNull
      end.
Proof.
  eexists. split; [reflexivity|].
  unfold directLinkedGroupId, directLinkedAnnotationId.
  rewrite prop_insert, prop_insert_ne, prop_insert by done.
  unfold js_or, prop.
  split.
  - destruct (settings !! "group") as [[]|]; simpl; try done.
    case_decide; subst; simpl; [done|].
    by destruct (String.eqb_spec s "").
  - destruct (settings !! "annotations") as [[]|]; simpl; try done.
    case_decide; subst; simpl; [done|].
    by destruct (String.eqb_spec s "").
Qed.

(** C8: [clearDirectLinkedIds] sets both IDs to [null] and leaves
    [directLinkedGroupFetchFailed] (and every other property) as it was; a
    [CLEAR_SELECTION] action resets the flag to [false] as well; and an
    action that clears all three in every state is a [CLEAR_SELECTION]. *)
Theorem clear_direct_linked_ids_frame (state a : gmap string value) (h : heap) :
  a !! "type" = Some (VStr "CLEAR_SELECTION") ->
  (directLinkedAnnotationId (reduce state clearDirectLinkedIds h).1 = VNull /\
   directLinkedGroupId (reduce state clearDirectLinkedIds h).1 = VNull /\
   directLinkedGroupFetchFailed (reduce state clearDirectLinkedIds h).1 =
     directLinkedGroupFetchFailed state) /\
  allCleared (reduce state a h).1 /\
  (forall b : gmap string value,
     (forall st, allCleared (reduce st b h).1) ->
     b !! "type" = Some (VStr "CLEAR_SELECTION")).
Proof.
  intros Ha. split; [|split].
  - erewrite reduce_registered by reflexivity. simpl.
    unfold directLinkedAnnotationId, directLinkedGroupId,
      directLinkedGroupFetchFailed.
    split; [by apply prop_union_l|]. split; [by apply prop_union_l|].
    by apply prop_union_r.
  - erewrite reduce_registered by (done || reflexivity). simpl.
    repeat split; by apply prop_union_l.
  - intros b Hb.
    pose (probe := (<[ "directLinkedAnnotationId" := VStr "a" ]>
                   (<[ "directLinkedGroupId" := VStr "g" ]>
                    {[ "directLinkedGroupFetchFailed" := VBool true ]}))
                   : gmap string value).
    assert (prop probe "directLinkedAnnotationId" = VStr "a") as Pann
      by reflexivity.
    assert (prop probe "directLinkedGroupId" = VStr "g") as Pgrp
      by reflexivity.
    assert (prop probe "directLinkedGroupFetchFailed" = VBool true) as Pflag
      by reflexivity.
    specialize (Hb probe). destruct Hb as (Hann & Hgrp & Hflag).
    unfold directLinkedAnnotationId, directLinkedGroupId,
      directLinkedGroupFetchFailed, reduce, CreateStore.createReducer in *.
    clearbody probe.
    destruct (b !! "type") as [ty|]; [|cbn [fst] in *; congruence].
    destruct ty as [| | | | |t|]; try (cbn [fst] in *; congruence).
    unfold reducers in *. rewrite !lookup_insert, lookup_singleton in *.
    repeat case_decide; subst; try reflexivity; exfalso;
      unfold UPDATE_DIRECT_LINKED_GROUP_FETCH_FAILED,
        UPDATE_DIRECT_LINKED_GROUP_ID, UPDATE_DIRECT_LINKED_ANNOTATION_ID,
        CLEAR_DIRECT_LINKED_IDS in *;
      cbn [fst] in *.
    + rewrite prop_union_r in Hann by reflexivity. congruence.
    + rewrite prop_union_r in Hann by reflexivity. congruence.
    + rewrite prop_union_r in Hgrp by reflexivity. congruence.
    + rewrite prop_union_r in Hflag by reflexivity. congruence.
    + congruence.
Qed.

(** C9: [setDirectLinkedGroupId(v)] sets [directLinkedGroupId] to [v] and
    changes nothing else, in particular neither [directLinkedAnnotationId]
    nor [directLinkedGroupFetchFailed]; [setDirectLinkedAnnotationId(v)]
    sets [directLinkedAnnotationId] to [v] and changes nothing else. *)
Theorem set_direct_linked_id_frame (state : gmap string value) (v : value) (h : heap) :
  let s1 := (reduce state (setDirectLinkedGroupId v) h).1 in
  let s2 := (reduce state (setDirectLinkedAnnotationId v) h).1 in
  (directLinkedGroupId s1 = v /\
   directLinkedAnnotationId s1 = directLinkedAnnotationId state /\
   directLinkedGroupFetchFailed s1 = directLinkedGroupFetchFailed state /\
   s1 = <[ "directLinkedGroupId" := v ]> state) /\
  (directLinkedAnnotationId s2 = v /\
   directLinkedGroupId s2 = directLinkedGroupId state /\
   directLinkedGroupFetchFailed s2 = directLinkedGroupFetchFailed state /\
   s2 = <[ "directLinkedAnnotationId" := v ]> state).
Proof.
  intros s1 s2. subst s1 s2.
  erewrite !reduce_registered by reflexivity. simpl.
  unfold directLinkedAnnotationId, directLinkedGroupId,
    directLinkedGroupFetchFailed.
  split.
  - split; [by apply prop_union_l|]. split; [by apply prop_union_r|].
    split; [by apply prop_union_r|]. by rewrite insert_union_singleton_l.
  - split; [by apply prop_union_l|]. split; [by apply prop_union_r|].
    split; [by apply prop_union_r|]. by rewrite insert_union_singleton_l.
Qed.

(** The flag's life cycle on a concrete trace: the flag is set, cleared
    and set again; the last [setDirectLinkedGroupFetchFailed] is followed
    only by [clearDirectLinkedIds], so the flag ends up raised. *)
Lemma fetch_failed_flag_lifecycle_witness :
  let settings : gmap string value := {[ "group" := VStr "g1" ]} in
  let state0 : gmap string value :=
    <[ "directLinkedGroupId" := VStr "g1" ]>
    (<[ "directLinkedAnnotationId" := VNull ]>
     {[ "directLinkedGroupFetchFailed" := VBool false ]}) in
  let actions :=
    [ setDirectLinkedGroupFetchFailed;
      setDirectLinkedGroupId (VStr "g2");
      clearDirectLinkedGroupFetchFailed;
      setDirectLinkedGroupFetchFailed;
      clearDirectLinkedIds ] in
  initialState (Some settings) = Returns state0 /\
  Forall dispatched actions /\
  directLinkedGroupFetchFailed (run state0 actions) = VBool true.
Proof.
  intros settings state0 actions.
  assert (initialState (Some settings) = Returns state0) as Hinit
    by reflexivity.
  assert (Forall dispatched actions) as Hd.
  { apply List.Forall_cons; [apply by_setDirectLinkedGroupFetchFailed|].
    apply List.Forall_cons; [apply by_setDirectLinkedGroupId|].
    apply List.Forall_cons; [apply by_clearDirectLinkedGroupFetchFailed|].
    apply List.Forall_cons; [apply by_setDirectLinkedGroupFetchFailed|].
    apply List.Forall_cons; [apply by_clearDirectLinkedIds|].
    apply List.Forall_nil. }
  split; [exact Hinit|]. split; [exact Hd|].
  destruct (fetch_failed_flag_lifecycle settings state0 actions Hinit Hd)
    as (_ & _ & _ & _ & Hiff & _).
  apply Hiff.
  exists [ setDirectLinkedGroupFetchFailed;
           setDirectLinkedGroupId (VStr "g2");
           clearDirectLinkedGroupFetchFailed ],
         [ clearDirectLinkedIds ].
  split; [reflexivity|].
  apply List.Forall_cons; [|apply List.Forall_nil].
  intros [E|E].
  - apply (f_equal (.!! "type")) in E. vm_compute in E. discriminate E.
  - vm_compute in E. discriminate E.
Defined.

(** Clearing the IDs on a concrete state: with the flag raised,
    [clearDirectLinkedIds] keeps it raised and a bare [CLEAR_SELECTION]
    action lowers it. *)
Lemma clear_direct_linked_ids_frame_witness :
  let state : gmap string value :=
    <[ "directLinkedAnnotationId" := VStr "a1" ]>
    (<[ "directLinkedGroupId" := VStr "g1" ]>
     {[ "directLinkedGroupFetchFailed" := VBool true ]}) in
  let a : gmap string value := {[ "type" := VStr "CLEAR_SELECTION" ]} in
  a !! "type" = Some (VStr "CLEAR_SELECTION") /\
  directLinkedGroupFetchFailed (reduce state clearDirectLinkedIds ∅).1
    = VBool true /\
  allCleared (reduce state a ∅).1.
Proof.
  intros state a.
  assert (a !! "type" = Some (VStr "CLEAR_SELECTION")) as Ha by reflexivity.
  destruct (clear_direct_linked_ids_frame state a ∅ Ha)
    as ((_ & _ & Hflag) & Hall & _).
  split; [exact Ha|]. split; [|exact Hall].
  rewrite Hflag. reflexivity.
Defined.

End DirectLinkedProperties.

(** ** [session.js] *)

Section SessionProperties.

Import Session.

Lemma alloc_fresh (o : gmap string value) (h : heap) : h !! (alloc o h).1 = None.
Proof. unfold alloc; simpl. apply not_elem_of_dom, is_fresh. Qed.

Lemma alloc_lookup (o : gmap string value) (h : heap) :
  (alloc o h).2 !! (alloc o h).1 = Some o.
Proof. unfold alloc; simpl. by rewrite lookup_insert_eq. Qed.

Lemma alloc_old (o : gmap string value) (h : heap) l :
  is_Some (h !! l) -> (alloc o h).2 !! l = h !! l.
Proof.
  intros Hl. unfold alloc; simpl. rewrite lookup_insert_ne; [done|].
  intros <-. destruct Hl as [x Hx].
  pose proof (is_fresh (dom h)) as Hf. apply not_elem_of_dom in Hf. congruence.
Qed.

(** The heap after the module is loaded: the constant refers to an object
    with two empty maps and a [null] user id. *)
Lemma load_initialProfile (h0 : heap) :
  exists features preferences,
    (load h0).2 !! (load h0).1 =
      Some (<[ "features" := VRef features ]>
           (<[ "preferences" := VRef preferences ]>
            {[ "userid" := VNull ]})) /\
    (load h0).2 !! features = Some ∅ /\
    (load h0).2 !! preferences = Some ∅.
Proof.
  unfold load.
  destruct (alloc ∅ h0) as [f h1] eqn:E1.
  destruct (alloc ∅ h1) as [p h2] eqn:E2.
  exists f, p.
  pose proof (alloc_lookup ∅ h0) as Hf. rewrite E1 in Hf; simpl in Hf.
  pose proof (alloc_lookup ∅ h1) as Hp. rewrite E2 in Hp; simpl in Hp.
  pose proof (alloc_old ∅ h1 f) as Hf2. rewrite E2, Hf in Hf2; simpl in Hf2.
  specialize (Hf2 (ltac:(by eexists))).
  split; [apply alloc_lookup|].
  split; rewrite alloc_old; by eauto.
Qed.

Lemma reduce_updateProfile (state : gmap string value) (p : value) (h : heap) :
  reduce state (updateProfile p) h =
    (<[ "profile" := VRef (alloc (spread h p) h).1 ]> state,
     (alloc (spread h p) h).2).
Proof.
  unfold reduce. erewrite createReducer_registered by reflexivity.
  unfold UPDATE_PROFILE.
  replace (prop (updateProfile p) "profile") with p by reflexivity.
  destruct (alloc (spread h p) h) as [l h'] eqn:E; simpl.
  by rewrite insert_union_singleton_l.
Qed.

(** C2: once [UPDATE_PROFILE] has been applied, with any profile value
    and in any state, [hasFetchedProfile] returns [true]: the state's
    profile is a newly allocated copy, never the [initialProfile] object,
    even when the profile passed in is [initialProfile] itself.  On the
    initial state [hasFetchedProfile] returns [false]. *)
Theorem profile_fetched_after_update
    (initialProfile : loc) (h : heap) (state : gmap string value) (p : value)
    (settings : option (gmap string value)) :
  is_Some (h !! initialProfile) ->
  let state' := (reduce state (updateProfile p) h).1 in
  let h' := (reduce state (updateProfile p) h).2 in
  hasFetchedProfile initialProfile state' = VBool true /\
  (exists copy,
     profile state' = VRef copy /\ copy <> initialProfile /\
     h !! copy = None /\ h' !! copy = Some (spread h p)) /\
  hasFetchedProfile initialProfile
    (reduce state (updateProfile (VRef initialProfile)) h).1 = VBool true /\
  hasFetchedProfile initialProfile (initialState initialProfile settings)
    = VBool false.
Proof.
  intros Hip state' h'. subst state' h'.
  assert (forall q, (alloc (spread h q) h).1 <> initialProfile) as Hne.
  { intros q E. pose proof (alloc_fresh (spread h q) h) as Hf.
    rewrite E in Hf. rewrite Hf in Hip. by destruct Hip. }
  assert (forall q, hasFetchedProfile initialProfile
                      (reduce state (updateProfile q) h).1 = VBool true) as Hq.
  { intros q. rewrite reduce_updateProfile. unfold hasFetchedProfile.
    cbn [fst]. rewrite prop_insert. unfold strict_ne, strict_eq.
    by rewrite (proj2 (Pos.eqb_neq _ _) (Hne q)). }
  split; [apply Hq|]. split; [|split; [apply Hq|]].
  - rewrite reduce_updateProfile. cbn [fst snd].
    exists (alloc (spread h p) h).1. unfold profile. rewrite prop_insert.
    split; [done|]. split; [apply Hne|].
    split; [apply alloc_fresh|apply alloc_lookup].
  - unfold hasFetchedProfile, initialState.
    rewrite prop_insert_ne, prop_singleton by done.
    unfold strict_ne, strict_eq. by rewrite Pos.eqb_refl.
Qed.

(** C4: before anything is fetched, [defaultAuthority] is
    [settings.authDomain] when that is present (neither missing, [undefined]
    nor [null]) and the empty string otherwise; the [profile] selector
    returns the dummy profile, whose features and preferences maps are
    empty and whose user id is [null]; so [isLoggedIn] returns [false]. *)
Theorem session_fallback_defaults
    (h0 : heap) (settings : option (gmap string value)) :
  let initialProfile := (load h0).1 in
  let h := (load h0).2 in
  let state := initialState initialProfile settings in
  defaultAuthority state =
    match settings with
    | Some s =>
        match s !! "authDomain" with
        | Some VUndefined | Some VNull | None => VStr ""
        | Some authDomain => authDomain
        end
    | None => VStr ""
    end /\
  profile state = VRef initialProfile /\
  (exists features preferences,
     h !! initialProfile =
       Some (<[ "features" := VRef features ]>
            (<[ "preferences" := VRef preferences ]>
             {[ "userid" := VNull ]})) /\
     h !! features = Some ∅ /\
     h !! preferences = Some ∅) /\
  member h (profile state) "userid" = Returns VNull /\
  isLoggedIn h state = Returns (VBool false).
Proof.
  intros initialProfile h state. subst initialProfile h state.
  destruct (load_initialProfile h0) as (f & p & Hip & Hf & Hp).
  assert (profile (initialState (load h0).1 settings) = VRef (load h0).1) as Hprof.
  { unfold profile, initialState. by rewrite prop_insert_ne, prop_singleton. }
  split.
  { unfold defaultAuthority, initialState. rewrite prop_insert.
    destruct settings as [s|]; [|done]. unfold prop.
    by destruct (s !! "authDomain") as [[]|]. }
  split; [done|]. split; [by exists f, p|].
  unfold isLoggedIn. unfold profile in Hprof. rewrite Hprof.
  unfold profile. rewrite Hprof, (member_ref _ _ _ _ Hip).
  by split.
Qed.

Example element_of_empty_map :
  element {[ 1%positive := ∅ ]} (VRef 1%positive) "toString" =
    Returns (Builtin "Object.prototype" "toString") /\
  element {[ 1%positive := ∅ ]} (VRef 1%positive) "client_display_names" =
    Returns (Data VUndefined) /\
  element {[ 1%positive := {[ "toString" := VBool false ]} ]}
          (VRef 1%positive) "toString" = Returns (Data (VBool false)).
Proof. repeat split; reflexivity. Qed.

Example element_of_string :
  element ∅ (VStr "abc") "length" = Returns (Data (VNum 3)) /\
  element ∅ (VStr "abc") "1" = Returns (Data (VStr "b")) /\
  element ∅ (VStr "abc") "3" = Returns (Data VUndefined) /\
  element ∅ (VStr "abc") "charAt" = Returns (Builtin "String.prototype" "charAt") /\
  element ∅ (VStr "abc") "hasOwnProperty" =
    Returns (Builtin "Object.prototype" "hasOwnProperty") /\
  element ∅ VUndefined "length" = Throws.
Proof. repeat split; reflexivity. Qed.







(** C7: after [updateProfile(p)], for a profile object [p], the [profile]
    selector returns an object with the same properties and values as [p],
    and [defaultAuthority] (like every property other than [profile]) is
    unchanged. *)
Theorem update_profile_round_trip
    (h : heap) (state : gmap string value) (p : loc) (fields : gmap string value) :
  h !! p = Some fields ->
  let state' := (reduce state (updateProfile (VRef p)) h).1 in
  let h' := (reduce state (updateProfile (VRef p)) h).2 in
  (exists copy,
     profile state' = VRef copy /\
     h' !! copy = Some fields /\
     forall k, member h' (profile state') k = member h (VRef p) k) /\
  defaultAuthority state' = defaultAuthority state /\
  (forall k, k <> "profile" -> state' !! k = state !! k) /\
  h' !! p = Some fields.
Proof.
  intros Hp state' h'. subst state' h'.
  rewrite reduce_updateProfile. cbn [fst snd spread]. rewrite Hp.
  cbn [default from_option]. unfold profile, defaultAuthority. rewrite prop_insert.
  split; [|split; [|split]].
  - exists (alloc fields h).1. split; [done|].
    split; [apply alloc_lookup|].
    intros k. unfold member. by rewrite alloc_lookup, Hp.
  - by rewrite prop_insert_ne.
  - intros k Hk. by rewrite lookup_insert_ne.
  - rewrite alloc_old; [done|by eexists].
Qed.

(** Fetching on a concrete heap: the heap holds the dummy profile and its
    two empty maps, and the dummy profile itself is passed to
    [updateProfile]. *)
Lemma profile_fetched_after_update_witness :
  let initialProfile : loc := 3%positive in
  let h : heap :=
    <[ 3%positive := <[ "features" := VRef 1%positive ]>
                     (<[ "preferences" := VRef 2%positive ]>
                      {[ "userid" := VNull ]}) ]>
    (<[ 2%positive := ∅ ]> {[ 1%positive := ∅ ]}) in
  is_Some (h !! initialProfile) /\
  hasFetchedProfile initialProfile
    (reduce (initialState initialProfile None)
            (updateProfile (VRef initialProfile)) h).1 = VBool true.
Proof.
  intros initialProfile h.
  assert (is_Some (h !! initialProfile)) as Hip.
  { eexists. reflexivity. }
  split; [exact Hip|].
  exact (proj1 (profile_fetched_after_update initialProfile h
                  (initialState initialProfile None) (VRef initialProfile)
                  None Hip)).
Defined.



(** The round trip on a concrete heap: a logged-in profile stored
    in the heap is passed to [updateProfile]; the state's authority stays
    the configured one. *)
Lemma update_profile_round_trip_witness :
  let fields : gmap string value := {[ "userid" := VStr "acct:jo@example.org" ]} in
  let h : heap := {[ 7%positive := fields ]} in
  let state : gmap string value :=
    <[ "defaultAuthority" := VStr "example.org" ]>
    {[ "profile" := VRef 1%positive ]} in
  h !! 7%positive = Some fields /\
  defaultAuthority
    (reduce state (updateProfile (VRef 7%positive)) h).1 = VStr "example.org".
Proof.
  intros fields h state.
  assert (h !! 7%positive = Some fields) as Hp by reflexivity.
  split; [exact Hp|].
  destruct (update_profile_round_trip h state 7%positive fields Hp)
    as (_ & Hauth & _).
  rewrite Hauth. reflexivity.
Defined.

End SessionProperties.

(** ** The [NotebookModal] component *)

Section NotebookModalProperties.

Import NotebookModal.

Example open_then_close :
  run (mount 0 (hostPage "scroll")) [BusEvent 0 "openNotebook"; CloseClicked] =
  Mounted 0 (Hooks true "scroll" (Some 0) (Some true) (Some (0, 0)))
            (Page "scroll" [(0, ["openNotebook"])] [(0, "closeNotebook")]).
Proof. reflexivity. Qed.

Example open_on_another_bus :
  visible (run (mount 0 (hostPage "")) [BusEvent 1 "openNotebook"]) = false.
Proof. reflexivity. Qed.

Example destroyed_while_open :
  run (mount 0 (hostPage "auto")) [BusEvent 0 "openNotebook"; Unmount] =
  Destroyed (Page "auto" [(0, [])] []).
Proof. reflexivity. Qed.

Lemma settled_mount o bus : settled o (mount bus (hostPage o)).
Proof.
  unfold mount, runEffects, overflowEffect, subscribeEffect; simpl.
  repeat split. by exists 0.
Qed.

(** The overflow effect brings the body's style in line with [isHidden]. *)
Lemma overflowEffect_spec o c p d :
  originalDocumentOverflowStyle c = o ->
  overflowEffectDeps c = Some d ->
  overflow p = (if d then o else "hidden") ->
  exists c' p',
    overflowEffect c p = (c', p') /\
    isHidden c' = isHidden c /\
    originalDocumentOverflowStyle c' = o /\
    emitterRef c' = emitterRef c /\
    emitterEffect c' = emitterEffect c /\
    overflowEffectDeps c' = Some (isHidden c) /\
    overflow p' = (if isHidden c then o else "hidden") /\
    emitters p' = emitters p /\
    published p' = published p.
Proof.
  intros Ho Hd Hp. unfold overflowEffect. case_decide as E.
  - exists c, p. rewrite Hd in E. injection E as ->. by repeat split.
  - eexists _, _. split; [reflexivity|]. simpl.
    repeat split; try done; subst o; by destruct (isHidden c).
Qed.

(** The subscription effect leaves a live emitter on the current bus. *)
Lemma subscribeEffect_spec bus bus' c p e :
  emitterEffect c = Some (bus, e) ->
  emitterRef c = Some e ->
  emitters p !! e = Some (bus, ["openNotebook"]) ->
  exists c' p' e',
    subscribeEffect bus' c p = (c', p') /\
    isHidden c' = isHidden c /\
    originalDocumentOverflowStyle c' = originalDocumentOverflowStyle c /\
    overflowEffectDeps c' = overflowEffectDeps c /\
    emitterEffect c' = Some (bus', e') /\
    emitterRef c' = Some e' /\
    emitters p' !! e' = Some (bus', ["openNotebook"]) /\
    overflow p' = overflow p /\
    published p' = published p.
Proof.
  intros He Hr Hl. unfold subscribeEffect. rewrite He. simpl.
  case_decide as E.
  - injection E as ->. exists c, p, e. by repeat split.
  - eexists _, _, _. split; [reflexivity|]. simpl.
    repeat split.
    rewrite list_lookup_alter_eq, lookup_app_r by done.
    by rewrite Nat.sub_diag.
Qed.

Lemma runEffects_spec o bus bus' c p d e :
  originalDocumentOverflowStyle c = o ->
  overflowEffectDeps c = Some d ->
  overflow p = (if d then o else "hidden") ->
  emitterEffect c = Some (bus, e) ->
  emitterRef c = Some e ->
  emitters p !! e = Some (bus, ["openNotebook"]) ->
  exists c' p',
    runEffects bus' c p = Mounted bus' c' p' /\
    isHidden c' = isHidden c /\
    published p' = published p /\
    settled o (Mounted bus' c' p').
Proof.
  intros Ho Hd Hp He Hr Hl.
  destruct (overflowEffect_spec o c p d Ho Hd Hp)
    as (c1 & p1 & E1 & Hh1 & Ho1 & Hr1 & He1 & Hd1 & Hp1 & Hem1 & Hpub1).
  rewrite <- Hem1 in Hl. rewrite <- He1 in He. rewrite <- Hr1 in Hr.
  destruct (subscribeEffect_spec bus bus' c1 p1 e He Hr Hl)
    as (c2 & p2 & e2 & E2 & Hh2 & Ho2 & Hd2 & He2 & Hr2 & Hl2 & Hp2 & Hpub2).
  exists c2, p2. unfold runEffects. rewrite E1, E2.
  split; [done|]. split; [congruence|]. split; [congruence|].
  simpl. split; [congruence|]. split; [congruence|].
  split; [rewrite Hh2, Hh1; congruence|]. by exists e2.
Qed.

Lemma subscribed_lookup bus name names (p : page) e :
  emitters p !! e = Some (bus, names) ->
  In name names ->
  subscribed bus name p = true.
Proof.
  intros Hl Hin. unfold subscribed. apply existsb_exists.
  exists (bus, names). split.
  - apply list_elem_of_In. by eapply list_elem_of_lookup_2.
  - rewrite Nat.eqb_refl. simpl. apply existsb_exists.
    exists name. split; [done|]. apply String.eqb_refl.
Qed.

Lemma settled_step o s ev : settled o s -> settled o (step s ev).
Proof.
  destruct s as [bus c p|p]; [|done].
  intros (Ho & Hd & Hp & e & He & Hr & Hl).
  destruct ev as [b name| |bus'|]; simpl.
  - destruct (subscribed b name p); [|by repeat split; eauto].
    destruct (runEffects_spec o bus bus (setIsHidden false c) p (isHidden c) e)
      as (c' & p' & -> & _ & _ & H); done.
  - rewrite Hr. unfold publish. rewrite Hl.
    destruct (runEffects_spec o bus bus (setIsHidden true c)
                (Page (overflow p) (emitters p)
                      (published p ++ [(bus, "closeNotebook")]))
                (isHidden c) e)
      as (c' & p' & -> & _ & _ & H); done.
  - destruct (runEffects_spec o bus bus' c p (isHidden c) e)
      as (c' & p' & -> & _ & _ & H); done.
  - rewrite He. simpl. done.
Qed.

Lemma settled_run o s evs : settled o s -> settled o (run s evs).
Proof.
  revert s. induction evs as [|ev evs IH]; intros s Hs; [done|].
  simpl. apply IH. by apply settled_step.
Qed.

(** C10 (amended): the modal starts hidden and the page's overflow is then
    still the original one; in every state reached from the mount the
    body's overflow is ['hidden'] when the modal is visible and the original
    value when the modal is hidden or the component destroyed, so that it
    is ['hidden'] exactly while the modal is visible whenever the original
    value is not itself ['hidden']; an ['openNotebook'] event on the
    modal's event bus makes it visible; the close button hides it and
    publishes ['closeNotebook'] on that bus. *)
Theorem notebook_modal_overflow (o : string) (bus : busId) (evs : list event) :
  let s0 := mount bus (hostPage o) in
  let s := run s0 evs in
  visible s0 = false /\
  overflow (pageOf s0) = o /\
  overflow (pageOf s) = (if visible s then "hidden" else o) /\
  (o <> "hidden" -> (overflow (pageOf s) = "hidden" <-> visible s = true)) /\
  overflow (pageOf (step s Unmount)) = o /\
  match s with
  | Mounted b c p =>
      visible (step s (BusEvent b "openNotebook")) = true /\
      visible (step s CloseClicked) = false /\
      published (pageOf (step s CloseClicked)) =
        published p ++ [(b, "closeNotebook")]
  | Destroyed _ => True
  end.
Proof.
  intros s0 s.
  assert (settled o s) as Hs by apply settled_run, settled_mount.
  assert (overflow (pageOf s) = (if visible s then "hidden" else o)) as Hov.
  { destruct s as [b c p|p]; [|exact Hs].
    destruct Hs as (_ & _ & Hp & _). simpl. rewrite Hp.
    by destruct (isHidden c). }
  split; [reflexivity|]. split; [reflexivity|]. split; [exact Hov|].
  split.
  { intros Hne. rewrite Hov. destruct (visible s); [done|].
    split; [intros E; by destruct Hne|done]. }
  split.
  { pose proof (settled_step o s Unmount Hs) as Hu.
    destruct s as [b c p|p]; [|exact Hs]. exact Hu. }
  destruct s as [b c p|p]; [|done].
  destruct Hs as (Ho & Hd & Hp & e & He & Hr & Hl).
  split; [|split].
  - simpl. rewrite (subscribed_lookup b "openNotebook" _ p e Hl) by (by left).
    destruct (runEffects_spec o b b (setIsHidden false c) p (isHidden c) e)
      as (c' & p' & -> & Hh & _ & _); try done.
    simpl. by rewrite Hh.
  - simpl. rewrite Hr. unfold publish. rewrite Hl.
    destruct (runEffects_spec o b b (setIsHidden true c)
                (Page (overflow p) (emitters p)
                      (published p ++ [(b, "closeNotebook")]))
                (isHidden c) e)
      as (c' & p' & -> & Hh & _ & _); try done.
    simpl. by rewrite Hh.
  - simpl. rewrite Hr. unfold publish. rewrite Hl.
    destruct (runEffects_spec o b b (setIsHidden true c)
                (Page (overflow p) (emitters p)
                      (published p ++ [(b, "closeNotebook")]))
                (isHidden c) e)
      as (c' & p' & -> & _ & Hpub & _); try done.
Qed.

(** The modal in a concrete page: in a page whose body has
    [overflow: auto], after the notebook is opened, closed and opened
    again. *)
Lemma notebook_modal_overflow_witness :
  let s := run (mount 0 (hostPage "auto"))
               [BusEvent 0 "openNotebook"; CloseClicked;
                BusEvent 0 "openNotebook"] in
  "auto" <> "hidden" /\
  (overflow (pageOf s) = "hidden" <-> visible s = true).
Proof.
  intros s.
  assert ("auto" <> "hidden") as Hne by discriminate.
  split; [exact Hne|].
  destruct (notebook_modal_overflow "auto" 0
              [BusEvent 0 "openNotebook"; CloseClicked;
               BusEvent 0 "openNotebook"])
    as (_ & _ & _ & Hiff & _).
  exact (Hiff Hne).
Defined.

(** C10 as stated fails: in a page whose body already has
    [overflow: hidden], the overflow is ['hidden'] right after the mount,
    while the modal is not visible. *)
Lemma overflow_hidden_while_modal_hidden :
  ~ (forall (o : string) (bus : busId) (evs : list event),
       let s := run (mount bus (hostPage o)) evs in
       overflow (pageOf s) = "hidden" <-> visible s = true).
Proof.
  intros H. specialize (H "hidden" 0 []). simpl in H.
  destruct H as [H _]. specialize (H eq_refl). discriminate H.
Qed.

End NotebookModalProperties.
(** ** More on [direct-linked.js] *)

Section DirectLinkedTraces.

Import DirectLinked.

Lemma reduce_changes (state action : gmap string value) h t r :
  action !! "type" = Some (VStr t) ->
  reducers !! t = Some r ->
  (reduce state action h).1 = (r state action h).1 ∪ state.
Proof. intros Ht Hr. by rewrite (reduce_registered _ _ _ _ _ Ht Hr). Qed.

Lemma reduce_setDirectLinkedGroupId (state : gmap string value) v h :
  (reduce state (setDirectLinkedGroupId v) h).1 =
  <[ "directLinkedGroupId" := v ]> state.
Proof.
  erewrite reduce_changes by reflexivity.
  unfold UPDATE_DIRECT_LINKED_GROUP_ID. cbn [fst].
  replace (prop (setDirectLinkedGroupId v) "directLinkedGroupId") with v
    by reflexivity.
  by rewrite insert_union_singleton_l.
Qed.

Lemma reduce_setDirectLinkedAnnotationId (state : gmap string value) v h :
  (reduce state (setDirectLinkedAnnotationId v) h).1 =
  <[ "directLinkedAnnotationId" := v ]> state.
Proof.
  erewrite reduce_changes by reflexivity.
  unfold UPDATE_DIRECT_LINKED_ANNOTATION_ID. cbn [fst].
  replace (prop (setDirectLinkedAnnotationId v) "directLinkedAnnotationId")
    with v by reflexivity.
  by rewrite insert_union_singleton_l.
Qed.

(** X1: raising or lowering the fetch-failed flag replaces that one
    property: both direct-linked IDs, and everything else, stay as they
    were. *)
Theorem fetch_failed_actions_frame (state : gmap string value) (h : heap) :
  let s1 := (reduce state setDirectLinkedGroupFetchFailed h).1 in
  let s2 := (reduce state clearDirectLinkedGroupFetchFailed h).1 in
  s1 = <[ "directLinkedGroupFetchFailed" := VBool true ]> state /\
  s2 = <[ "directLinkedGroupFetchFailed" := VBool false ]> state /\
  directLinkedGroupId s1 = directLinkedGroupId state /\
  directLinkedAnnotationId s1 = directLinkedAnnotationId state /\
  directLinkedGroupId s2 = directLinkedGroupId state /\
  directLinkedAnnotationId s2 = directLinkedAnnotationId state.
Proof.
  intros s1 s2. subst s1 s2.
  erewrite !reduce_changes by reflexivity.
  unfold UPDATE_DIRECT_LINKED_GROUP_FETCH_FAILED. cbn [fst].
  replace (prop setDirectLinkedGroupFetchFailed "directLinkedGroupFetchFailed")
    with (VBool true) by reflexivity.
  replace (prop clearDirectLinkedGroupFetchFailed "directLinkedGroupFetchFailed")
    with (VBool false) by reflexivity.
  unfold directLinkedGroupId, directLinkedAnnotationId.
  split; [by rewrite insert_union_singleton_l|].
  split; [by rewrite insert_union_singleton_l|].
  repeat split; by apply prop_union_r.
Qed.

(** X2: a [CLEAR_SELECTION] action does what [clearDirectLinkedIds] and
    [clearDirectLinkedGroupFetchFailed] do together, in either order. *)
Theorem clear_selection_composes (state a : gmap string value) (h : heap) :
  a !! "type" = Some (VStr "CLEAR_SELECTION") ->
  (reduce state a h).1 =
    (reduce (reduce state clearDirectLinkedIds h).1
            clearDirectLinkedGroupFetchFailed h).1 /\
  (reduce state a h).1 =
    (reduce (reduce state clearDirectLinkedGroupFetchFailed h).1
            clearDirectLinkedIds h).1.
Proof.
  intros Ha.
  erewrite (reduce_changes _ a) by (done || reflexivity).
  erewrite !reduce_changes by reflexivity.
  unfold CLEAR_SELECTION, CLEAR_DIRECT_LINKED_IDS,
    UPDATE_DIRECT_LINKED_GROUP_FETCH_FAILED. cbn [fst].
  replace (prop clearDirectLinkedGroupFetchFailed "directLinkedGroupFetchFailed")
    with (VBool false) by reflexivity.
  split; apply map_eq; intros k;
    rewrite ?lookup_union, ?lookup_insert, ?lookup_singleton;
    repeat case_decide; subst; try done;
    match goal with |- context [state !! ?x] => by destruct (state !! x) end.
Qed.

Lemma clear_selection_composes_witness :
  let state : gmap string value :=
    <[ "directLinkedAnnotationId" := VStr "a1" ]>
    (<[ "directLinkedGroupId" := VStr "g1" ]>
     {[ "directLinkedGroupFetchFailed" := VBool true ]}) in
  let a : gmap string value := {[ "type" := VStr "CLEAR_SELECTION" ]} in
  a !! "type" = Some (VStr "CLEAR_SELECTION") /\
  (reduce state a ∅).1 =
    (reduce (reduce state clearDirectLinkedIds ∅).1
            clearDirectLinkedGroupFetchFailed ∅).1.
Proof.
  intros state a.
  assert (a !! "type" = Some (VStr "CLEAR_SELECTION")) as Ha by reflexivity.
  split; [exact Ha|].
  exact (proj1 (clear_selection_composes state a ∅ Ha)).
Defined.

(** X3: setting an ID twice keeps the last value, and the two IDs are set
    independently: setting the group and the annotation gives the same state
    in either order. *)
Theorem set_ids_compose (state : gmap string value) (v w : value) (h : heap) :
  (reduce (reduce state (setDirectLinkedGroupId v) h).1
          (setDirectLinkedGroupId w) h).1 =
    (reduce state (setDirectLinkedGroupId w) h).1 /\
  (reduce (reduce state (setDirectLinkedAnnotationId v) h).1
          (setDirectLinkedAnnotationId w) h).1 =
    (reduce state (setDirectLinkedAnnotationId w) h).1 /\
  (reduce (reduce state (setDirectLinkedGroupId v) h).1
          (setDirectLinkedAnnotationId w) h).1 =
    (reduce (reduce state (setDirectLinkedAnnotationId w) h).1
            (setDirectLinkedGroupId v) h).1.
Proof.
  rewrite !reduce_setDirectLinkedGroupId, !reduce_setDirectLinkedAnnotationId.
  split; [by rewrite insert_insert_eq|].
  split; [by rewrite insert_insert_eq|].
  by apply insert_insert_ne.
Qed.

Lemma run_cons state a actions :
  run state (a :: actions) = run (reduce state a ∅).1 actions.
Proof. reflexivity. Qed.

Lemma run_app state actions actions' :
  run state (actions ++ actions') = run (run state actions) actions'.
Proof. unfold run. by rewrite foldl_app. Qed.

(** One dispatched action keeps the set of properties of a state that has
    the module's three. *)
Lemma dom_after_dispatched (state a : gmap string value) :
  dispatched a ->
  dom state = {[ "directLinkedGroupId"; "directLinkedAnnotationId";
                 "directLinkedGroupFetchFailed" ]} ->
  dom (reduce state a ∅).1 = dom state.
Proof.
  intros Ha Hdom.
  destruct Ha as [ | |v|v| |a Ha|a t Ha Ht];
    try (erewrite reduce_changes by (done || reflexivity);
         unfold UPDATE_DIRECT_LINKED_GROUP_FETCH_FAILED,
           UPDATE_DIRECT_LINKED_GROUP_ID, UPDATE_DIRECT_LINKED_ANNOTATION_ID,
           CLEAR_DIRECT_LINKED_IDS, CLEAR_SELECTION; cbn [fst];
         rewrite dom_union_L, ?dom_insert_L, dom_singleton_L, Hdom;
         set_solver).
  unfold reduce. by erewrite createReducer_unregistered.
Qed.

(** X4: the state keeps its shape: after any sequence of dispatched
    actions, none of a type that names a member inherited from
    [Object.prototype], it has exactly the three properties the initial
    state has, so every selector reads a property that is there. *)
Theorem state_shape_invariant
    (settings state0 : gmap string value) (actions : list (gmap string value)) :
  initialState (Some settings) = Returns state0 ->
  Forall dispatched actions ->
  Forall (fun a => ~ CreateStore.inheritedType a) actions ->
  dom (run state0 actions) =
    {[ "directLinkedGroupId"; "directLinkedAnnotationId";
       "directLinkedGroupFetchFailed" ]}.
Proof.
  intros Hinit Hd _. injection Hinit as <-. revert Hd.
  induction actions as [|a l IH] using rev_ind; intros Hd.
  - unfold run; simpl. rewrite !dom_insert_L, dom_singleton_L. set_solver.
  - apply Forall_app in Hd as [Hl Ha]. apply Forall_inv in Ha.
    rewrite run_snoc, dom_after_dispatched by auto. auto.
Qed.

Lemma state_shape_invariant_witness :
  let settings : gmap string value := {[ "annotations" := VStr "ann1" ]} in
  let state0 : gmap string value :=
    <[ "directLinkedGroupId" := VNull ]>
    (<[ "directLinkedAnnotationId" := VStr "ann1" ]>
     {[ "directLinkedGroupFetchFailed" := VBool false ]}) in
  let actions :=
    [ setDirectLinkedGroupId (VStr "g2"); clearDirectLinkedIds;
      {[ "type" := VStr "SELECT_TAB" ]} ] in
  initialState (Some settings) = Returns state0 /\
  Forall dispatched actions /\
  Forall (fun a => ~ CreateStore.inheritedType a) actions /\
  dom (run state0 actions) =
    {[ "directLinkedGroupId"; "directLinkedAnnotationId";
       "directLinkedGroupFetchFailed" ]}.
Proof.
  intros settings state0 actions.
  assert (initialState (Some settings) = Returns state0) as Hinit
    by reflexivity.
  assert (Forall dispatched actions) as Hd.
  { apply List.Forall_cons; [apply by_setDirectLinkedGroupId|].
    apply List.Forall_cons; [apply by_clearDirectLinkedIds|].
    apply List.Forall_cons; [|apply List.Forall_nil].
    apply (foreign _ "SELECT_TAB"); reflexivity. }
  assert (Forall (fun a => ~ CreateStore.inheritedType a) actions) as Hown.
  { apply List.Forall_cons; [|apply List.Forall_cons;
                                [|apply List.Forall_cons;
                                    [|apply List.Forall_nil]]];
      intros (t & Ht & Hin); vm_compute in Ht; injection Ht as <-;
      vm_compute in Hin; discriminate Hin. }
  split; [exact Hinit|]. split; [exact Hd|]. split; [exact Hown|].
  exact (state_shape_invariant settings state0 actions Hinit Hd Hown).
Defined.

Lemma type_of_setDirectLinkedGroupId v :
  setDirectLinkedGroupId v !! "type" = Some (VStr "UPDATE_DIRECT_LINKED_GROUP_ID").
Proof. reflexivity. Qed.

Lemma type_of_setDirectLinkedAnnotationId v :
  setDirectLinkedAnnotationId v !! "type" =
  Some (VStr "UPDATE_DIRECT_LINKED_ANNOTATION_ID").
Proof. reflexivity. Qed.

(** The group ID after one dispatched action. *)
Lemma group_id_after_dispatched (state a : gmap string value) :
  dispatched a ->
  (forall v, a = setDirectLinkedGroupId v ->
             directLinkedGroupId (reduce state a ∅).1 = v) /\
  (clearsIds a -> directLinkedGroupId (reduce state a ∅).1 = VNull) /\
  (~ setsGroupId a -> ~ clearsIds a ->
   directLinkedGroupId (reduce state a ∅).1 = directLinkedGroupId state).
Proof.
  intros Ha. unfold directLinkedGroupId, clearsIds, setsGroupId.
  destruct Ha as [ | |v0|v0| |a Ha|a t Ha Ht].
  - split; [|split].
    + intros v E. by apply (f_equal (.!! "type")) in E.
    + intros [E|E]; [by apply (f_equal (.!! "type")) in E|].
      vm_compute in E. discriminate E.
    + intros _ _. erewrite reduce_changes by reflexivity. by apply prop_union_r.
  - split; [|split].
    + intros v E. by apply (f_equal (.!! "type")) in E.
    + intros [E|E]; [by apply (f_equal (.!! "type")) in E|].
      vm_compute in E. discriminate E.
    + intros _ _. erewrite reduce_changes by reflexivity. by apply prop_union_r.
  - split; [|split].
    + intros v E. apply (f_equal (.!! "directLinkedGroupId")) in E.
      rewrite reduce_setDirectLinkedGroupId, prop_insert.
      assert (forall x, setDirectLinkedGroupId x !! "directLinkedGroupId" = Some x)
        as Hx by reflexivity.
      rewrite !Hx in E. congruence.
    + intros [E|E]; [by apply (f_equal (.!! "type")) in E|].
      vm_compute in E. discriminate E.
    + intros Hn. destruct Hn. by exists v0.
  - split; [|split].
    + intros v E. by apply (f_equal (.!! "type")) in E.
    + intros [E|E]; [by apply (f_equal (.!! "type")) in E|].
      vm_compute in E. discriminate E.
    + intros _ _. rewrite reduce_setDirectLinkedAnnotationId.
      by rewrite prop_insert_ne.
  - split; [|split].
    + intros v E. by apply (f_equal (.!! "type")) in E.
    + intros _. erewrite reduce_changes by reflexivity. by apply prop_union_l.
    + intros _ Hn. destruct Hn. by left.
  - split; [|split].
    + intros v ->. rewrite type_of_setDirectLinkedGroupId in Ha. congruence.
    + intros _. erewrite reduce_changes by (done || reflexivity).
      by apply prop_union_l.
    + intros _ Hn. destruct Hn. by right.
  - split; [|split].
    + intros v ->. rewrite type_of_setDirectLinkedGroupId in Ha.
      injection Ha as <-. discriminate Ht.
    + intros [->|E].
      * injection Ha as <-. discriminate Ht.
      * rewrite Ha in E. injection E as ->. discriminate Ht.
    + intros _ _. unfold reduce. by erewrite createReducer_unregistered.
Qed.

Lemma clearsIds_dec (a : gmap string value) : Decision (clearsIds a).
Proof. unfold clearsIds. apply _. Qed.

(** A cleared group ID stays cleared until it is set again. *)
Lemma group_id_stays_null (state : gmap string value) actions :
  Forall dispatched actions ->
  Forall (fun a => ~ setsGroupId a) actions ->
  directLinkedGroupId state = VNull ->
  directLinkedGroupId (run state actions) = VNull.
Proof.
  revert state. induction actions as [|a l IH]; intros state Hd Hn H0; [done|].
  apply Forall_cons in Hd as [Ha Hd]. apply Forall_cons in Hn as [Hna Hn].
  rewrite run_cons. apply IH; [done..|].
  destruct (group_id_after_dispatched state a Ha) as (_ & Hc & Hk).
  destruct (clearsIds_dec a) as [Hca|Hca]; [by apply Hc|].
  by rewrite Hk.
Qed.

(** A group ID stays as it is while it is neither set nor cleared. *)
Lemma group_id_untouched (state : gmap string value) actions :
  Forall dispatched actions ->
  Forall (fun a => ~ setsGroupId a /\ ~ clearsIds a) actions ->
  directLinkedGroupId (run state actions) = directLinkedGroupId state.
Proof.
  revert state. induction actions as [|a l IH]; intros state Hd Hn; [done|].
  apply Forall_cons in Hd as [Ha Hd]. apply Forall_cons in Hn as [[Hs Hc] Hn].
  rewrite run_cons, IH by done.
  by apply (group_id_after_dispatched state a Ha).
Qed.

(** X5: the direct link is consumed: after a sequence of dispatched
    actions, [directLinkedGroupId] is [null] when a clearing action
    ([clearDirectLinkedIds] or [CLEAR_SELECTION]) is followed by no
    [setDirectLinkedGroupId], and it is [v] when a
    [setDirectLinkedGroupId(v)] is followed by neither a clearing action nor
    another [setDirectLinkedGroupId]. *)
Theorem group_id_along_trace
    (state a : gmap string value) (before after : list (gmap string value)) :
  Forall dispatched (before ++ a :: after) ->
  (clearsIds a ->
   Forall (fun x => ~ setsGroupId x) after ->
   directLinkedGroupId (run state (before ++ a :: after)) = VNull) /\
  (forall v,
     a = setDirectLinkedGroupId v ->
     Forall (fun x => ~ setsGroupId x /\ ~ clearsIds x) after ->
     directLinkedGroupId (run state (before ++ a :: after)) = v).
Proof.
  intros Hd. apply Forall_app in Hd as [_ Hd].
  apply Forall_cons in Hd as [Ha Hd].
  rewrite run_app, run_cons.
  destruct (group_id_after_dispatched (run state before) a Ha) as (Hs & Hc & _).
  split.
  - intros Hca Hn. apply group_id_stays_null; auto.
  - intros v Hv Hn. rewrite group_id_untouched by done. by apply Hs.
Qed.

Lemma group_id_along_trace_witness :
  let state : gmap string value :=
    <[ "directLinkedGroupId" := VStr "g1" ]>
    (<[ "directLinkedAnnotationId" := VNull ]>
     {[ "directLinkedGroupFetchFailed" := VBool false ]}) in
  let before := [ setDirectLinkedGroupId (VStr "g2") ] in
  let after := [ setDirectLinkedGroupFetchFailed ] in
  Forall dispatched (before ++ clearDirectLinkedIds :: after) /\
  clearsIds clearDirectLinkedIds /\
  Forall (fun x => ~ setsGroupId x) after /\
  directLinkedGroupId (run state (before ++ clearDirectLinkedIds :: after))
    = VNull.
Proof.
  intros state before after.
  assert (Forall dispatched (before ++ clearDirectLinkedIds :: after)) as Hd.
  { apply List.Forall_cons; [apply by_setDirectLinkedGroupId|].
    apply List.Forall_cons; [apply by_clearDirectLinkedIds|].
    apply List.Forall_cons; [apply by_setDirectLinkedGroupFetchFailed|].
    apply List.Forall_nil. }
  assert (clearsIds clearDirectLinkedIds) as Hc by (left; reflexivity).
  assert (Forall (fun x => ~ setsGroupId x) after) as Hn.
  { apply List.Forall_cons; [|apply List.Forall_nil].
    intros [v E]. apply (f_equal (.!! "type")) in E.
    vm_compute in E. discriminate E. }
  split; [exact Hd|]. split; [exact Hc|]. split; [exact Hn|].
  exact (proj1 (group_id_along_trace state clearDirectLinkedIds before after Hd)
               Hc Hn).
Defined.

End DirectLinkedTraces.

(** ** More on [session.js] *)

Section SessionTraces.

Import Session.

(** What the module's reducer does with an arbitrary action. *)
Lemma reduce_cases (state a : gmap string value) (h : heap) :
  (updatesProfile a /\
   reduce state a h =
     (<[ "profile" := VRef (alloc (spread h (prop a "profile")) h).1 ]> state,
      (alloc (spread h (prop a "profile")) h).2)) \/
  (~ updatesProfile a /\ reduce state a h = (state, h)).
Proof.
  unfold updatesProfile, reduce, CreateStore.createReducer.
  destruct (a !! "type") as [ty|]; [|by right].
  destruct ty as [| | | | |t|]; try by right.
  unfold reducers. rewrite lookup_singleton.
  case_decide as E; [subst t; left|right; split; [congruence|done]].
  split; [done|]. unfold UPDATE_PROFILE.
  destruct (alloc (spread h (prop a "profile")) h) as [l h'].
  cbn [fst snd]. by rewrite insert_union_singleton_l.
Qed.

Lemma session_run_snoc state h actions a :
  run state h (actions ++ [a]) =
  reduce (run state h actions).1 a (run state h actions).2.
Proof. unfold run. by rewrite foldl_app. Qed.

(** X6: no action changes [defaultAuthority], nor any property of the
    state other than [profile]: whatever is dispatched, with whatever
    payload, as long as its type does not name a member inherited from
    [Object.prototype], the authority stays the one fixed by
    [initialState]. *)
Theorem only_profile_changes
    (state : gmap string value) (h : heap) (actions : list (gmap string value))
    (initialProfile : loc) (settings : option (gmap string value)) :
  Forall (fun a => ~ CreateStore.inheritedType a) actions ->
  (forall k, k <> "profile" -> (run state h actions).1 !! k = state !! k) /\
  defaultAuthority (run state h actions).1 = defaultAuthority state /\
  defaultAuthority (run (initialState initialProfile settings) h actions).1 =
    js_coalesce
      (match settings with
       | Some s => prop s "authDomain"
       | None => VUndefined
       end) (VStr "").
Proof.
  intros _.
  assert (forall s k, k <> "profile" -> (run s h actions).1 !! k = s !! k) as Hk.
  { intros s k Hne. induction actions as [|a l IH] using rev_ind; [done|].
    rewrite session_run_snoc.
    destruct (reduce_cases (run s h l).1 a (run s h l).2) as [[_ ->]|[_ ->]];
      cbn [fst]; [|done].
    by rewrite lookup_insert_ne. }
  split; [by apply Hk|].
  assert (forall s, defaultAuthority (run s h actions).1 = defaultAuthority s) as Hd.
  { intros s. unfold defaultAuthority, prop. by rewrite Hk. }
  split; [apply Hd|]. rewrite Hd.
  unfold defaultAuthority, initialState. by rewrite prop_insert.
Qed.

(** The reducer only ever adds objects to the heap. *)
Lemma reduce_keeps_objects (state a : gmap string value) (h : heap) l :
  is_Some (h !! l) -> (reduce state a h).2 !! l = h !! l.
Proof.
  intros Hl.
  destruct (reduce_cases state a h) as [[_ ->]|[_ ->]]; cbn [snd]; [|done].
  by apply alloc_old.
Qed.

Lemma run_keeps_objects
    (state : gmap string value) (h : heap) (actions : list (gmap string value))
    (l : loc) :
  is_Some (h !! l) ->
  (run state h actions).2 !! l = h !! l.
Proof.
  intros Hl. induction actions as [|a acts IH] using rev_ind; [done|].
  rewrite session_run_snoc, reduce_keeps_objects; [done|].
  by rewrite IH.
Qed.

(** X8: dispatching actions never modifies an object that is already
    there: the profile passed to [updateProfile], the dummy profile and the
    profiles stored earlier all keep their properties; the heap only
    grows. *)
Theorem objects_never_mutated
    (state : gmap string value) (h : heap) (actions : list (gmap string value))
    (l : loc) :
  is_Some (h !! l) ->
  (run state h actions).2 !! l = h !! l /\
  (forall a, (reduce state a h).2 !! l = h !! l) /\
  h ⊆ (run state h actions).2.
Proof.
  intros Hl. split; [by apply run_keeps_objects|].
  split; [intros a; by apply reduce_keeps_objects|].
  apply map_subseteq_spec. intros i x Hi.
  rewrite run_keeps_objects; [done|by eexists].
Qed.

Lemma objects_never_mutated_witness :
  let fields : gmap string value := {[ "userid" := VStr "acct:jo@example.org" ]} in
  let h : heap := {[ 7%positive := fields ]} in
  let state : gmap string value := {[ "profile" := VRef 7%positive ]} in
  is_Some (h !! 7%positive) /\
  (run state h [updateProfile (VRef 7%positive); updateProfile VNull]).2
    !! 7%positive = Some fields.
Proof.
  intros fields h state.
  assert (is_Some (h !! 7%positive)) as Hl by (eexists; reflexivity).
  split; [exact Hl|].
  rewrite (proj1 (objects_never_mutated state h _ 7%positive Hl)).
  reflexivity.
Defined.

(** The state's profile, along any trace from the initial state, is an
    object of the heap; it is the dummy profile until the first
    [UPDATE_PROFILE] and never again after it. *)
Lemma profile_along_trace
    (initialProfile : loc) (h : heap) (settings : option (gmap string value))
    (actions : list (gmap string value)) :
  is_Some (h !! initialProfile) ->
  exists l,
    profile (run (initialState initialProfile settings) h actions).1 = VRef l /\
    is_Some ((run (initialState initialProfile settings) h actions).2 !! l) /\
    (l = initialProfile <-> Forall (fun a => ~ updatesProfile a) actions).
Proof.
  intros Hip. induction actions as [|a acts IH] using rev_ind.
  - exists initialProfile. split; [|split; [done|]].
    + unfold run, profile, initialState. cbn [foldl fst].
      by rewrite prop_insert_ne, prop_singleton.
    + split; [by constructor|done].
  - destruct IH as (l & Hl & Hlive & Hiff).
    rewrite session_run_snoc.
    set (s := (run (initialState initialProfile settings) h acts).1) in *.
    set (h1 := (run (initialState initialProfile settings) h acts).2) in *.
    destruct (reduce_cases s a h1) as [[Ha ->]|[Ha ->]]; cbn [fst snd].
    + exists (alloc (spread h1 (prop a "profile")) h1).1.
      unfold profile. rewrite prop_insert.
      split; [done|]. split; [by rewrite alloc_lookup|].
      split.
      * intros E. exfalso.
        pose proof (alloc_fresh (spread h1 (prop a "profile")) h1) as Hf.
        rewrite E in Hf. subst h1.
        rewrite (run_keeps_objects _ h acts initialProfile Hip) in Hf.
        rewrite Hf in Hip. by destruct Hip.
      * intros Hall. apply Forall_app in Hall as [_ Hall].
        apply Forall_inv in Hall. by destruct Hall.
    + exists l. split; [done|]. split; [done|]. rewrite Hiff.
      rewrite Forall_app. split; [|tauto].
      intros Hall. split; [done|]. by apply Forall_singleton.
Qed.

Lemma updated_or_not (actions : list (gmap string value)) :
  Exists updatesProfile actions \/
  Forall (fun a => ~ updatesProfile a) actions.
Proof.
  induction actions as [|a l [IH|IH]].
  - right. constructor.
  - left. by constructor.
  - destruct (decide (a !! "type" = Some (VStr "UPDATE_PROFILE"))) as [E|E].
    + left. by constructor.
    + right. by constructor.
Qed.

(** X7: from the initial state on, [hasFetchedProfile] returns [true]
    exactly when an [UPDATE_PROFILE] action has been dispatched, whatever
    other actions come before or after it; it never goes back to
    [false]. *)
Theorem fetched_iff_updated
    (initialProfile : loc) (h : heap) (settings : option (gmap string value))
    (actions : list (gmap string value)) :
  is_Some (h !! initialProfile) ->
  (hasFetchedProfile initialProfile
     (run (initialState initialProfile settings) h actions).1 = VBool true <->
   Exists updatesProfile actions) /\
  (hasFetchedProfile initialProfile
     (run (initialState initialProfile settings) h actions).1 = VBool false <->
   Forall (fun a => ~ updatesProfile a) actions).
Proof.
  intros Hip.
  destruct (profile_along_trace initialProfile h settings actions Hip)
    as (l & Hl & _ & Hiff).
  unfold hasFetchedProfile. unfold profile in Hl. rewrite Hl.
  unfold strict_ne, strict_eq.
  assert (Exists updatesProfile actions <->
          ~ Forall (fun a => ~ updatesProfile a) actions) as Hex.
  { split.
    - intros He Hall. apply Exists_exists in He as (a & Hin & Ha).
      by apply (proj1 (Forall_forall _ _) Hall a).
    - intros Hn. destruct (updated_or_not actions) as [He|Hall]; [done|].
      by destruct Hn. }
  rewrite Hex, <- Hiff.
  destruct (Pos.eqb_spec l initialProfile) as [E|E]; simpl;
    split; split; try done; intros; first [congruence | tauto].
Qed.

Lemma only_profile_changes_witness :
  let state : gmap string value :=
    <[ "defaultAuthority" := VStr "example.org" ]>
    {[ "profile" := VRef 1%positive ]} in
  let actions : list (gmap string value) :=
    [updateProfile VNull; {[ "type" := VStr "CLEAR_SELECTION" ]}] in
  Forall (fun a => ~ CreateStore.inheritedType a) actions /\
  "defaultAuthority" <> "profile" /\
  (run state ∅ actions).1 !! "defaultAuthority" = Some (VStr "example.org").
Proof.
  intros state actions.
  assert (Forall (fun a => ~ CreateStore.inheritedType a) actions) as Hown.
  { apply List.Forall_cons; [|apply List.Forall_cons; [|apply List.Forall_nil]];
      intros (t & Ht & Hin); vm_compute in Ht; injection Ht as <-;
      vm_compute in Hin; discriminate Hin. }
  assert ("defaultAuthority" <> "profile") as Hne by discriminate.
  split; [exact Hown|]. split; [exact Hne|].
  rewrite (proj1 (only_profile_changes state ∅ actions 1%positive None Hown)
                 "defaultAuthority" Hne).
  reflexivity.
Defined.

Lemma fetched_iff_updated_witness :
  let h : heap := {[ 3%positive := {[ "userid" := VNull ]} ]} in
  let actions : list (gmap string value) :=
    [ {[ "type" := VStr "CLEAR_SELECTION" ]}; updateProfile (VRef 3%positive) ] in
  is_Some (h !! 3%positive) /\
  hasFetchedProfile 3%positive
    (run (initialState 3%positive None) h actions).1 = VBool true.
Proof.
  intros h actions.
  assert (is_Some (h !! 3%positive)) as Hip by (eexists; reflexivity).
  split; [exact Hip|].
  apply (proj1 (fetched_iff_updated 3%positive h None actions Hip)).
  apply List.Exists_cons_tl, List.Exists_cons_hd. reflexivity.
Defined.

Lemma reduce_updateProfile_object
    (state : gmap string value) (h : heap) p (fields : gmap string value) :
  h !! p = Some fields ->
  reduce state (updateProfile (VRef p)) h =
    (<[ "profile" := VRef (alloc fields h).1 ]> state, (alloc fields h).2).
Proof.
  intros Hp. rewrite reduce_updateProfile. unfold spread. by rewrite Hp.
Qed.

(** X9: after [updateProfile(p)], [isLoggedIn] compares [p]'s [userid]
    with [null]: a profile whose [userid] is [null] (the logged-out profile
    the server returns) gives [false] although [hasFetchedProfile] is now
    [true]; a string [userid] gives [true]; and so does a profile that has
    no [userid] property at all, since [undefined !== null]. *)
Theorem logged_in_after_update
    (initialProfile : loc) (h : heap) (state : gmap string value)
    (p : loc) (fields : gmap string value) :
  h !! p = Some fields ->
  is_Some (h !! initialProfile) ->
  let state' := (reduce state (updateProfile (VRef p)) h).1 in
  let h' := (reduce state (updateProfile (VRef p)) h).2 in
  isLoggedIn h' state' =
    Returns (VBool (strict_ne (prop fields "userid") VNull)) /\
  (fields !! "userid" = Some VNull ->
   isLoggedIn h' state' = Returns (VBool false) /\
   hasFetchedProfile initialProfile state' = VBool true) /\
  (forall u, fields !! "userid" = Some (VStr u) ->
             isLoggedIn h' state' = Returns (VBool true)) /\
  (fields !! "userid" = None ->
   isLoggedIn h' state' = Returns (VBool true)).
Proof.
  intros Hp Hip state' h'. subst state' h'.
  rewrite (reduce_updateProfile_object _ _ _ _ Hp). cbn [fst snd].
  assert (isLoggedIn (alloc fields h).2
            (<[ "profile" := VRef (alloc fields h).1 ]> state) =
          Returns (VBool (strict_ne (prop fields "userid") VNull))) as Hlog.
  { unfold isLoggedIn. rewrite prop_insert.
    by rewrite (member_ref _ _ _ _ (alloc_lookup fields h)). }
  rewrite Hlog. split; [done|]. unfold prop.
  split; [|split].
  - intros ->. split; [done|].
    unfold hasFetchedProfile. rewrite prop_insert.
    unfold strict_ne, strict_eq.
    destruct (Pos.eqb_spec (alloc fields h).1 initialProfile) as [E|E]; [|done].
    pose proof (alloc_fresh fields h) as Hf. rewrite E in Hf.
    rewrite Hf in Hip. by destruct Hip.
  - by intros u ->.
  - by intros ->.
Qed.

Lemma logged_in_after_update_witness :
  let fields : gmap string value :=
    <[ "userid" := VNull ]> {[ "features" := VRef 1%positive ]} in
  let h : heap := <[ 7%positive := fields ]> {[ 3%positive := ∅ ]} in
  let state : gmap string value := {[ "profile" := VRef 3%positive ]} in
  h !! 7%positive = Some fields /\
  is_Some (h !! 3%positive) /\
  fields !! "userid" = Some VNull /\
  isLoggedIn (reduce state (updateProfile (VRef 7%positive)) h).2
             (reduce state (updateProfile (VRef 7%positive)) h).1
    = Returns (VBool false) /\
  hasFetchedProfile 3%positive
    (reduce state (updateProfile (VRef 7%positive)) h).1 = VBool true.
Proof.
  intros fields h state.
  assert (h !! 7%positive = Some fields) as Hp by reflexivity.
  assert (is_Some (h !! 3%positive)) as Hip by (eexists; reflexivity).
  assert (fields !! "userid" = Some VNull) as Hu by reflexivity.
  split; [exact Hp|]. split; [exact Hip|]. split; [exact Hu|].
  destruct (logged_in_after_update 3%positive h state 7%positive fields Hp Hip)
    as (_ & Hnull & _).
  exact (Hnull Hu).
Defined.



(** X11: every [updateProfile] stores a new object: the profile after a
    second update is never the object stored by the first one, even for
    the same profile value, and the first copy is still intact. *)
Theorem update_allocates_new_profile
    (state : gmap string value) (h : heap) (p q : value) :
  let state1 := (reduce state (updateProfile p) h).1 in
  let h1 := (reduce state (updateProfile p) h).2 in
  let state2 := (reduce state1 (updateProfile q) h1).1 in
  let h2 := (reduce state1 (updateProfile q) h1).2 in
  strict_eq (profile state2) (profile state1) = false /\
  profile state2 <> profile state1 /\
  (forall k, member h2 (profile state1) k = member h1 (profile state1) k).
Proof.
  intros state1 h1 state2 h2. subst state1 h1 state2 h2.
  rewrite !reduce_updateProfile. cbn [fst snd].
  rewrite ?reduce_updateProfile. cbn [fst snd].
  unfold profile. rewrite !prop_insert.
  set (l1 := (alloc (spread h p) h).1).
  set (h1 := (alloc (spread h p) h).2).
  set (l2 := (alloc (spread h1 q) h1).1).
  assert (is_Some (h1 !! l1)) as Hl1 by (subst l1 h1; by rewrite alloc_lookup).
  assert (l2 <> l1) as Hne.
  { intros E. pose proof (alloc_fresh (spread h1 q) h1) as Hf.
    fold l2 in Hf. rewrite E in Hf. rewrite Hf in Hl1. by destruct Hl1. }
  split; [|split].
  - unfold strict_eq. by apply Pos.eqb_neq.
  - congruence.
  - intros k. unfold member. by rewrite alloc_old.
Qed.

(** X12: from the initial state of a loaded module on, whatever actions
    are dispatched, the state's profile is an object of the heap, so
    [isLoggedIn] returns a boolean and never throws; until the first
    [UPDATE_PROFILE] that boolean is [false]. *)
Theorem is_logged_in_never_throws
    (h0 : heap) (settings : option (gmap string value))
    (actions : list (gmap string value)) :
  let initialProfile := (load h0).1 in
  let state := (run (initialState initialProfile settings) (load h0).2 actions).1 in
  let h := (run (initialState initialProfile settings) (load h0).2 actions).2 in
  exists b,
    isLoggedIn h state = Returns (VBool b) /\
    (Forall (fun a => ~ updatesProfile a) actions -> b = false).
Proof.
  intros initialProfile state h. subst initialProfile state h.
  destruct (load_initialProfile h0) as (fs & ps & Hip & _).
  assert (is_Some ((load h0).2 !! (load h0).1)) as Hsome by (by eexists).
  destruct (profile_along_trace (load h0).1 (load h0).2 settings actions Hsome)
    as (l & Hl & [o Ho] & Hiff).
  unfold isLoggedIn. unfold profile in Hl. rewrite Hl.
  rewrite (member_ref _ _ _ _ Ho). cbn [bind].
  eexists. split; [reflexivity|].
  intros Hall. apply Hiff in Hall. subst l.
  rewrite (run_keeps_objects _ _ actions _ Hsome), Hip in Ho.
  injection Ho as <-. reflexivity.
Qed.

End SessionTraces.

(** ** More on the [NotebookModal] component *)

Section NotebookModalTraces.

Import NotebookModal.

Lemma run_destroyed p evs : run (Destroyed p) evs = Destroyed p.
Proof. induction evs as [|ev evs IH]; [done|]. exact IH. Qed.

Lemma run_step s ev evs : run s (ev :: evs) = run (step s ev) evs.
Proof. reflexivity. Qed.

(** When nothing it depends on has changed, no effect runs. *)
Lemma runEffects_idle bus c p e :
  overflowEffectDeps c = Some (isHidden c) ->
  emitterEffect c = Some (bus, e) ->
  runEffects bus c p = Mounted bus c p.
Proof.
  intros Hd He. unfold runEffects, overflowEffect, subscribeEffect.
  rewrite decide_True by done. rewrite He. simpl.
  by rewrite decide_True.
Qed.

(** The emitters after the subscription effect: the previous emitter has
    lost its subscription when the bus changed, and one emitter was
    added. *)
Lemma subscribeEffect_emitters bus bus' c p e :
  emitterEffect c = Some (bus, e) ->
  emitterRef c = Some e ->
  onlySubscriber (Some e) p ->
  onlySubscriber (emitterRef (subscribeEffect bus' c p).1)
                 (subscribeEffect bus' c p).2 /\
  length (emitters (subscribeEffect bus' c p).2) =
    length (emitters p) + (if decide (bus' = bus) then 0 else 1).
Proof.
  intros He Hr Hothers. unfold subscribeEffect. rewrite He. simpl.
  case_decide as E.
  - injection E as ->. rewrite decide_True by done. simpl.
    rewrite Hr. split; [done|lia].
  - rewrite decide_False by congruence. simpl.
    split; [|by rewrite !length_alter, length_app, length_alter].
    unfold onlySubscriber, subscribe. simpl. rewrite length_alter.
    intros e' b names Hl Hne.
    assert (e' <> length (emitters p)) as Hne' by congruence.
    rewrite list_lookup_alter_ne in Hl by done.
    destruct (decide (e' < length (emitters p))) as [Hlt|Hge].
    + rewrite lookup_app_l in Hl by (by rewrite length_alter).
      destruct (decide (e' = e)) as [->|Hee].
      * rewrite list_lookup_alter_eq in Hl.
        apply fmap_Some in Hl as ([b0 names0] & _ & Heq). by injection Heq.
      * rewrite list_lookup_alter_ne in Hl by done.
        apply (Hothers e' b names Hl). congruence.
    + rewrite lookup_ge_None_2 in Hl; [done|].
      rewrite length_app, length_alter. simpl. lia.
Qed.

Lemma overflowEffect_emitters c p :
  emitters (overflowEffect c p).2 = emitters p /\
  emitterRef (overflowEffect c p).1 = emitterRef c /\
  emitterEffect (overflowEffect c p).1 = emitterEffect c.
Proof.
  unfold overflowEffect. case_decide; [done|]. simpl.
  by destruct (isHidden c).
Qed.

(** One render's effects, with the emitters' bookkeeping. *)
Lemma runEffects_tidy o bus bus' c p d e :
  originalDocumentOverflowStyle c = o ->
  overflowEffectDeps c = Some d ->
  overflow p = (if d then o else "hidden") ->
  emitterEffect c = Some (bus, e) ->
  emitterRef c = Some e ->
  emitters p !! e = Some (bus, ["openNotebook"]) ->
  onlySubscriber (Some e) p ->
  exists c' p',
    runEffects bus' c p = Mounted bus' c' p' /\
    isHidden c' = isHidden c /\
    published p' = published p /\
    overflow p' = (if isHidden c then o else "hidden") /\
    tidy o (Mounted bus' c' p') /\
    length (emitters p') =
      length (emitters p) + (if decide (bus' = bus) then 0 else 1).
Proof.
  intros Ho Hd Hp He Hr Hl Hothers.
  destruct (runEffects_spec o bus bus' c p d e Ho Hd Hp He Hr Hl)
    as (c' & p' & Hrun & Hh & Hpub & Hs).
  exists c', p'. split; [done|]. split; [done|]. split; [done|].
  assert (overflow p' = (if isHidden c then o else "hidden")) as Hov.
  { destruct Hs as (_ & _ & Hov & _). by rewrite Hov, Hh. }
  split; [done|].
  unfold runEffects in Hrun.
  destruct (overflowEffect_emitters c p) as (Hem & Hr1 & He1).
  destruct (overflowEffect c p) as [c1 p1]. simpl in Hem, Hr1, He1.
  rewrite <- He1 in He. rewrite <- Hr1 in Hr.
  assert (onlySubscriber (Some e) p1) as Hothers1.
  { intros e' b names. rewrite Hem. apply Hothers. }
  destruct (subscribeEffect_emitters bus bus' c1 p1 e He Hr Hothers1)
    as (Ho2 & Hlen).
  destruct (subscribeEffect bus' c1 p1) as [c2 p2]. simpl in Ho2, Hlen.
  injection Hrun as <- <-.
  split; [by split|]. by rewrite Hlen, Hem.
Qed.

Lemma tidy_mount o bus : tidy o (mount bus (hostPage o)).
Proof.
  split; [apply settled_mount|]. simpl.
  intros e b names Hl Hne. destruct e as [|e]; [done|].
  by destruct e.
Qed.

Lemma tidy_step o s ev : tidy o s -> tidy o (step s ev).
Proof.
  intros [Hs Hothers]. destruct s as [bus c p|p]; [|by split].
  destruct Hs as (Ho & Hd & Hp & e & He & Hr & Hl).
  rewrite Hr in Hothers.
  destruct ev as [b name| |bus'|]; simpl.
  - destruct (subscribed b name p).
    + destruct (runEffects_tidy o bus bus (setIsHidden false c) p (isHidden c) e)
        as (c' & p' & -> & _ & _ & _ & H & _); done.
    + split; [by repeat split; eauto|]. simpl. by rewrite Hr.
  - rewrite Hr. unfold publish. rewrite Hl.
    destruct (runEffects_tidy o bus bus (setIsHidden true c)
                (Page (overflow p) (emitters p)
                      (published p ++ [(bus, "closeNotebook")]))
                (isHidden c) e)
      as (c' & p' & -> & _ & _ & _ & H & _); done.
  - destruct (runEffects_tidy o bus bus' c p (isHidden c) e)
      as (c' & p' & -> & _ & _ & _ & H & _); done.
  - rewrite He. split; [done|].
    unfold onlySubscriber, destroy, restoreOverflow, setOverflow. simpl.
    intros e' b names Hl' _.
    destruct (decide (e' = e)) as [->|Hne].
    + rewrite list_lookup_alter_eq in Hl'.
      apply fmap_Some in Hl' as ([b0 names0] & _ & Heq). by injection Heq.
    + rewrite list_lookup_alter_ne in Hl' by done.
      apply (Hothers e' b names Hl'). congruence.
Qed.

Lemma tidy_run o s evs : tidy o s -> tidy o (run s evs).
Proof.
  revert s. induction evs as [|ev evs IH]; intros s Hs; [done|].
  rewrite run_step. apply IH. by apply tidy_step.
Qed.

Lemma subscribed_inv bus name (p : page) :
  subscribed bus name p = true ->
  exists (e : emitterId) names,
    emitters p !! e = Some (bus, names) /\ In name names.
Proof.
  unfold subscribed. intros H. apply existsb_exists in H as ([b names] & Hin & H).
  apply andb_prop in H as [Hb Hn]. apply Nat.eqb_eq in Hb. subst b.
  apply existsb_exists in Hn as (n & Hn & E). apply String.eqb_eq in E. subst n.
  apply list_elem_of_In, list_elem_of_lookup_1 in Hin as [e He].
  by exists e, names.
Qed.

(** What reaches a mounted component whose emitters are in order. *)
Lemma subscribed_mounted o b c p b' name :
  tidy o (Mounted b c p) ->
  subscribed b' name p = true <-> b' = b /\ name = "openNotebook".
Proof.
  intros [Hs Hothers].
  destruct Hs as (_ & _ & _ & e & _ & Hr & Hl). rewrite Hr in Hothers.
  split.
  - intros H. apply subscribed_inv in H as (e' & names & Hl' & Hin).
    destruct (decide (e' = e)) as [Heq|Hne].
    + subst e'. rewrite Hl in Hl'. injection Hl' as -> <-.
      split; [done|]. by destruct Hin as [<-|[]].
    + rewrite (Hothers e' b' names Hl') in Hin by congruence. by destruct Hin.
  - intros [-> ->]. apply (subscribed_lookup _ _ _ _ e Hl). by left.
Qed.

(** Nothing reaches a destroyed component. *)
Lemma subscribed_destroyed o p b' name :
  tidy o (Destroyed p) -> subscribed b' name p = false.
Proof.
  intros [_ Hothers]. destruct (subscribed b' name p) eqn:H; [|done].
  apply subscribed_inv in H as (e' & names & Hl' & Hin).
  rewrite (Hothers e' b' names Hl') in Hin by done. by destruct Hin.
Qed.

(** One event handled by a mounted component, other than its
    destruction: the component stays mounted, publishes one
    ['closeNotebook'] on a close click and nothing otherwise, and creates one
    emitter when it is rendered with another bus and none otherwise. *)
Lemma step_mounted o b c p ev :
  tidy o (Mounted b c p) ->
  ev <> Unmount ->
  exists c' p',
    step (Mounted b c p) ev =
      Mounted (match ev with Rerender b' => b' | _ => b end) c' p' /\
    tidy o (step (Mounted b c p) ev) /\
    published p' =
      published p ++
      (match ev with CloseClicked => [(b, "closeNotebook")] | _ => [] end) /\
    length (emitters p') =
      length (emitters p) +
      (match ev with
       | Rerender b' => if decide (b' = b) then 0 else 1
       | _ => 0
       end).
Proof.
  intros Ht Hev. pose proof (tidy_step o _ ev Ht) as Ht'.
  destruct Ht as [(Ho & Hd & Hp & e & He & Hr & Hl) Hothers].
  rewrite Hr in Hothers.
  destruct ev as [b' name| |b'|]; [| | |done]; simpl in *.
  - destruct (subscribed b' name p).
    + destruct (runEffects_tidy o b b (setIsHidden false c) p (isHidden c) e)
        as (c' & p' & Hrun & _ & Hpub & _ & _ & Hlen); try done.
      rewrite Hrun in *. exists c', p'.
      rewrite decide_True in Hlen by done.
      split; [done|]. split; [done|]. split; [by rewrite app_nil_r|done].
    + exists c, p. split; [done|]. split; [done|].
      split; [by rewrite app_nil_r|lia].
  - rewrite Hr in *. unfold publish in *. rewrite Hl in *.
    destruct (runEffects_tidy o b b (setIsHidden true c)
                (Page (overflow p) (emitters p)
                      (published p ++ [(b, "closeNotebook")]))
                (isHidden c) e)
      as (c' & p' & Hrun & _ & Hpub & _ & _ & Hlen); try done.
    rewrite Hrun in *. exists c', p'.
    rewrite decide_True in Hlen by done.
    split; [done|]. split; [done|]. split; done.
  - destruct (runEffects_tidy o b b' c p (isHidden c) e)
      as (c' & p' & Hrun & _ & Hpub & _ & _ & Hlen); try done.
    rewrite Hrun in *. exists c', p'.
    split; [done|]. split; [done|]. split; [by rewrite app_nil_r|done].
Qed.

(** X13: the component listens to exactly one thing: in every state
    reached from the mount, an event reaches a callback of the component
    exactly when it is ['openNotebook'] sent over the current event bus;
    emitters of earlier buses have been destroyed, and once the component is
    destroyed no event reaches it. *)
Theorem only_open_notebook_subscribed (o : string) (bus : busId) (evs : list event) :
  match run (mount bus (hostPage o)) evs with
  | Mounted b c p =>
      forall b' name,
        subscribed b' name p = true <-> b' = b /\ name = "openNotebook"
  | Destroyed p =>
      forall b' name, subscribed b' name p = false
  end.
Proof.
  pose proof (tidy_run o _ evs (tidy_mount o bus)) as Ht.
  destruct (run (mount bus (hostPage o)) evs) as [b c p|p].
  - intros b' name. by apply (subscribed_mounted o b c).
  - intros b' name. by apply (subscribed_destroyed o).
Qed.

(** X14: events the component does not wait for change nothing: an event
    with another name, or sent over another bus than the current one, leaves
    the whole state as it is, and so does ['openNotebook'] when the modal is
    already visible. *)
Theorem other_events_ignored
    (o : string) (bus : busId) (evs : list event) (b' : busId) (name : string) :
  let s := run (mount bus (hostPage o)) evs in
  match s with
  | Mounted b c p =>
      b' <> b \/ name <> "openNotebook" \/ visible s = true ->
      step s (BusEvent b' name) = s
  | Destroyed _ => step s (BusEvent b' name) = s
  end.
Proof.
  intros s. subst s.
  pose proof (tidy_run o _ evs (tidy_mount o bus)) as Ht.
  destruct (run (mount bus (hostPage o)) evs) as [b c p|p]; [|done].
  intros Hcase. simpl.
  destruct (subscribed b' name p) eqn:Hsub; [|done].
  apply (subscribed_mounted o b c p) in Hsub as [-> ->]; [|done].
  destruct Hcase as [Hb|[Hn|Hv]]; [done|done|].
  destruct Ht as [(Ho & Hd & Hp & e & He & Hr & Hl) _].
  simpl in Hv. apply negb_true_iff in Hv.
  assert (setIsHidden false c = c) as -> by (destruct c; simpl in *; by subst).
  by apply (runEffects_idle b c p e).
Qed.

Lemma other_events_ignored_witness :
  let s := run (mount 0 (hostPage "auto")) [BusEvent 0 "openNotebook"] in
  (1 <> 0 \/ "openNotebook" <> "openNotebook" \/ visible s = true) /\
  step s (BusEvent 1 "openNotebook") = s.
Proof.
  intros s.
  assert (1 <> 0 \/ "openNotebook" <> "openNotebook" \/ visible s = true) as H
    by (left; discriminate).
  split; [exact H|].
  exact (other_events_ignored "auto" 0 [BusEvent 0 "openNotebook"] 1
           "openNotebook" H).
Defined.

(** X15: rendering the modal again with the same event bus changes
    nothing; with another bus it keeps the visibility, the body's overflow
    and the published events, and moves the subscription: ['openNotebook']
    now reaches the component over the new bus and no longer over the old
    one. *)
Theorem rerender_moves_subscription
    (o : string) (bus : busId) (evs : list event) (b' : busId) :
  let s := run (mount bus (hostPage o)) evs in
  match s with
  | Mounted b c p =>
      step s (Rerender b) = s /\
      visible (step s (Rerender b')) = visible s /\
      overflow (pageOf (step s (Rerender b'))) = overflow p /\
      published (pageOf (step s (Rerender b'))) = published p /\
      subscribed b' "openNotebook" (pageOf (step s (Rerender b'))) = true /\
      (b' <> b ->
       subscribed b "openNotebook" (pageOf (step s (Rerender b'))) = false)
  | Destroyed _ => step s (Rerender b') = s
  end.
Proof.
  intros s. subst s.
  pose proof (tidy_run o _ evs (tidy_mount o bus)) as Ht.
  destruct (run (mount bus (hostPage o)) evs) as [b c p|p]; [|done].
  pose proof (tidy_step o _ (Rerender b') Ht) as Ht'.
  destruct Ht as [(Ho & Hd & Hp & e & He & Hr & Hl) Hothers].
  rewrite Hr in Hothers.
  split. { simpl. by apply (runEffects_idle b c p e). }
  simpl in *.
  destruct (runEffects_tidy o b b' c p (isHidden c) e)
    as (c' & p' & Hrun & Hh & Hpub & Hov & _ & _); try done.
  rewrite Hrun in *. simpl.
  split; [by rewrite Hh|]. split; [by rewrite Hov, Hp|]. split; [done|].
  split.
  - by apply (subscribed_mounted o b' c' p').
  - intros Hne. destruct (subscribed b "openNotebook" p') eqn:Hsub; [|done].
    apply (subscribed_mounted o b' c' p') in Hsub as [-> _]; done.
Qed.

Lemma rerender_moves_subscription_witness :
  let s := step (run (mount 0 (hostPage "auto")) [BusEvent 0 "openNotebook"])
                (Rerender 1) in
  1 <> 0 /\
  subscribed 0 "openNotebook" (pageOf s) = false.
Proof.
  intros s.
  assert (1 <> 0) as Hne by discriminate.
  split; [exact Hne|].
  pose proof (rerender_moves_subscription "auto" 0 [BusEvent 0 "openNotebook"] 1)
    as H.
  simpl in H. destruct H as (_ & _ & _ & _ & _ & H).
  exact (H Hne).
Defined.

(** The published events and the emitters along a trace from a mounted
    state. *)
Lemma published_and_emitters_along o b c p evs :
  tidy o (Mounted b c p) ->
  exists extra,
    published (pageOf (run (Mounted b c p) evs)) = published p ++ extra /\
    length extra = closeClicks evs /\
    Forall (fun ev => ev.2 = "closeNotebook") extra /\
    length (emitters (pageOf (run (Mounted b c p) evs))) =
      length (emitters p) + busChanges b evs.
Proof.
  revert b c p. induction evs as [|ev evs IH]; intros b c p Ht.
  - exists []. simpl. split; [by rewrite app_nil_r|]. split; [done|].
    split; [constructor|lia].
  - rewrite run_step.
    assert (ev = Unmount \/ ev <> Unmount) as [->|Hev]
      by (destruct ev; [right|right|right|left]; done).
    + simpl. rewrite run_destroyed. simpl.
      destruct Ht as [(_ & _ & _ & e & -> & _) _].
      exists []. simpl. rewrite length_alter.
      split; [by rewrite app_nil_r|]. split; [done|]. split; [constructor|lia].
    + destruct (step_mounted o b c p ev Ht Hev)
        as (c' & p' & Hstep & Ht' & Hpub & Hlen).
      rewrite Hstep in *.
      destruct (IH _ c' p' Ht') as (extra & Hpub' & Hlen' & Hall & Hem).
      rewrite Hpub', Hpub, Hem, Hlen.
      destruct ev as [b' name| |b'|]; [| | |done]; simpl.
      * exists extra. rewrite app_nil_r. split; [done|]. split; [done|].
        split; [done|lia].
      * exists ((b, "closeNotebook") :: extra). rewrite <- app_assoc.
        split; [done|]. split; [simpl; by rewrite Hlen'|].
        split; [by constructor|lia].
      * exists extra. rewrite app_nil_r. split; [done|]. split; [done|].
        split; [done|]. case_decide; lia.
Qed.

(** X16: the component publishes one ['closeNotebook'] event for every
    press of the close button before it is destroyed, and never anything
    else. *)
Theorem one_close_event_per_click (o : string) (bus : busId) (evs : list event) :
  let p := pageOf (run (mount bus (hostPage o)) evs) in
  length (published p) = closeClicks evs /\
  Forall (fun ev => ev.2 = "closeNotebook") (published p).
Proof.
  intros p. subst p.
  pose proof (tidy_mount o bus) as Ht.
  destruct (mount bus (hostPage o)) as [b c p|p] eqn:Hm; [|done].
  assert (published p = []) as Hnil by (by injection Hm as <- <- <-).
  destruct (published_and_emitters_along o b c p evs Ht)
    as (extra & -> & Hlen & Hall & _).
  by rewrite Hnil.
Qed.

(** X17: the component creates one emitter when it is mounted and one
    each time it is rendered with another event bus, and none otherwise. *)
Theorem one_emitter_per_bus (o : string) (bus : busId) (evs : list event) :
  length (emitters (pageOf (run (mount bus (hostPage o)) evs))) =
    1 + busChanges bus evs.
Proof.
  pose proof (tidy_mount o bus) as Ht.
  destruct (mount bus (hostPage o)) as [b c p|p] eqn:Hm; [|done].
  assert (length (emitters p) = 1 /\ b = bus) as [Hone ->]
    by (by injection Hm as <- <- <-).
  destruct (published_and_emitters_along o bus c p evs Ht)
    as (extra & _ & _ & _ & ->).
  by rewrite Hone.
Qed.

(** X18: opening the notebook and closing it again brings a hidden modal
    back to the state it was in (hooks, body overflow, emitters); the only
    trace left is the ['closeNotebook'] event published on the current
    bus. *)
Theorem open_close_round_trip (o : string) (bus : busId) (evs : list event) :
  let s := run (mount bus (hostPage o)) evs in
  match s with
  | Mounted b c p =>
      visible s = false ->
      step (step s (BusEvent b "openNotebook")) CloseClicked =
        Mounted b c (Page (overflow p) (emitters p)
                          (published p ++ [(b, "closeNotebook")]))
  | Destroyed _ => True
  end.
Proof.
  intros s. subst s.
  pose proof (tidy_run o _ evs (tidy_mount o bus)) as Ht.
  destruct (run (mount bus (hostPage o)) evs) as [b c p|p]; [|done].
  intros Hv. simpl in Hv. apply negb_false_iff in Hv.
  destruct Ht as [(Ho & Hd & Hp & e & He & Hr & Hl) _].
  destruct c as [hid orig ref deps eff]. simpl in *. subst.
  rewrite (subscribed_lookup b "openNotebook" _ p e Hl) by (by left).
  unfold runEffects, overflowEffect, subscribeEffect. simpl.
  destruct (decide (Some b = Some b)) as [_|Hn]; [|done]. simpl.
  unfold publish. simpl. rewrite Hl. simpl.
  unfold runEffects, overflowEffect, subscribeEffect. simpl.
  destruct (decide (Some b = Some b)) as [_|Hn]; [|done].
  by rewrite Hp.
Qed.

Lemma open_close_round_trip_witness :
  let s := run (mount 0 (hostPage "scroll")) [Rerender 2] in
  visible s = false /\
  step (step s (BusEvent 2 "openNotebook")) CloseClicked =
    Mounted 2 (Hooks true "scroll" (Some 1) (Some true) (Some (2, 1)))
              (Page "scroll" [(0, []); (2, ["openNotebook"])]
                    [(2, "closeNotebook")]).
Proof.
  intros s.
  assert (visible s = false) as Hv by reflexivity.
  split; [exact Hv|].
  exact (open_close_round_trip "scroll" 0 [Rerender 2] Hv).
Defined.

End NotebookModalTraces.
